(** * Checkpoints: the anchor registry of src/checkpoints/checkpoints.cpp

    A shallow embedding of the class [cryptonote::checkpoints] and the
    properties of its insert, query and load operations.

    Heights are [uint64_t] in the source.  They are only ever compared here,
    never added or subtracted, so no wrap-around can occur and they are
    modelled as [N]; every statement below quantifies over all of [N] and so
    covers the 64-bit range. *)

From Stdlib Require Import List NArith String Ascii Bool Lia.
Import ListNotations.
Open Scope N_scope.

(** ** [std::map<uint64_t, V>]

    The source keeps its anchors in [std::map], an ordered container: the
    code relies on the order ([upper_bound], [rbegin], [--end()], in-order
    iteration).  The map is modelled by the sequence of its entries in key
    order; an iterator is a position in that sequence, [begin()] is position
    0 and [end()] is the length. *)

Module OMap.

Section Defs.
Context {V : Type}.

Definition t : Type := list (N * V).

Definition iterator : Type := nat.

Definition begin (m : t) : iterator := 0%nat.

Definition end_ (m : t) : iterator := List.length m.

(** [m.empty()] *)
Definition empty (m : t) : bool :=
  match m with
  | [] => true
  | _ :: _ => false
  end.

(** [m.find(k)]: the search follows the key order, as the tree search of
    the source does; [None] stands for [m.end()]. *)
Fixpoint find (m : t) (k : N) : option V :=
  match m with
  | [] => None
  | (k', v) :: rest =>
      if k <? k' then None
      else if k =? k' then Some v
      else find rest k
  end.

(** [m.count(k)], which is 0 or 1 for a map. *)
Definition count (m : t) (k : N) : nat :=
  match find m k with
  | Some _ => 1%nat
  | None => 0%nat
  end.

(** [m[k] = v]: overwrite the entry of [k], or insert it at its place. *)
Fixpoint assign (m : t) (k : N) (v : V) : t :=
  match m with
  | [] => [(k, v)]
  | (k', v') :: rest =>
      if k <? k' then (k, v) :: m
      else if k =? k' then (k, v) :: rest
      else (k', v') :: assign rest k v
  end.

(** [m.upper_bound(k)]: the position of the first entry whose key is
    strictly greater than [k], [end()] when there is none. *)
Fixpoint upper_bound (m : t) (k : N) : iterator :=
  match m with
  | [] => 0%nat
  | (k', _) :: rest =>
      if k <? k' then 0%nat else S (upper_bound rest k)
  end.

(** [it->first].  Dereferencing a position outside the map is undefined
    in the source; the model answers 0 there, and [prev_upper_bound_inside]
    and [prev_end_inside] below show that the callers never do it. *)
Definition key_at (m : t) (it : iterator) : N :=
  match nth_error m it with
  | Some (k, _) => k
  | None => 0
  end.

(** [--it] *)
Definition prev (it : iterator) : iterator := Nat.pred it.

(** [m.rbegin()->first], which is [(--m.end())->first]. *)
Definition rbegin_key (m : t) : N := key_at m (prev (end_ m)).

Definition keys (m : t) : list N := map fst m.

(** The invariant of [std::map]: keys strictly increase along the
    sequence (so they are unique). *)
Definition key_lt_head (k : N) (m : t) : bool :=
  match m with
  | [] => true
  | (k', _) :: _ => k <? k'
  end.

Fixpoint ordered (m : t) : bool :=
  match m with
  | [] => true
  | (k, _) :: rest => key_lt_head k rest && ordered rest
  end.

End Defs.

Arguments t V : clear implicits.

End OMap.

(** ** The collaborators of the source that live outside this file *)

(** [struct t_hashline] *)
Record t_hashline : Type := mk_hashline {
  hl_height : N;
  hl_hash : string
}.

(** [struct t_hash_json] *)
Record t_hash_json : Type := mk_hash_json {
  hashlines : list t_hashline
}.

(** Modelled from the spec: [difficulty_type], which the source declares in
    another file, is "an arbitrary-precision non-negative integer". *)
Definition difficulty_type : Type := N.

(** Modelled from the spec: [network_type], declared in another file, is the
    "network identifier (main / test / stage)". *)
Inductive network_type : Type := MAINNET | TESTNET | STAGENET.

(** What the methods call and this file of the source does not define:
    - [hash] is [crypto::hash], a fixed-size value compared with [==];
    - [hex_to_pod] is [epee::string_tools::hex_to_pod], [None] when the
      string is not the hex form of a hash;
    - [difficulty_of_string] is the constructor
      [difficulty_type(const std::string&)], [None] when it throws;
    - [file_exists] is [boost::filesystem::exists];
    - [load_t_from_json_file] is [epee::serialization::load_t_from_json_file],
      [None] when it reports failure.
    Everything is proved for every such collaborator. *)
Class Externals : Type := {
  hash : Type;
  hash_eq_dec : forall a b : hash, {a = b} + {a <> b};
  hex_to_pod : string -> option hash;
  difficulty_of_string : string -> option difficulty_type;
  file_exists : string -> bool;
  load_t_from_json_file : string -> option t_hash_json
}.

(** ** The state of a [checkpoints] object and the monad of its methods *)

Section State.
Context {E : Externals}.

(** The two data members of [class checkpoints]. *)
Record checkpoints : Type := mk_checkpoints {
  m_points : OMap.t hash;
  m_difficulty_points : OMap.t difficulty_type
}.

(** [checkpoints::checkpoints()] *)
Definition new_checkpoints : checkpoints := mk_checkpoints [] [].

(** A method is a function from the state of the object to its result and
    the state it leaves. *)
Definition M (A : Type) : Type := checkpoints -> A * checkpoints.

Definition ret {A : Type} (a : A) : M A := fun s => (a, s).

Definition bind {A B : Type} (c : M A) (k : A -> M B) : M B :=
  fun s => let (a, s') := c s in k a s'.

(** Reading the members, which is all a [const] method does. *)
Definition gets {A : Type} (f : checkpoints -> A) : M A :=
  fun s => (f s, s).

Definition set_points (p : OMap.t hash) : M unit :=
  fun s => (tt, mk_checkpoints p (m_difficulty_points s)).

Definition set_difficulty_points (d : OMap.t difficulty_type) : M unit :=
  fun s => (tt, mk_checkpoints (m_points s) d).

Definition result {A : Type} (c : M A) (s : checkpoints) : A := fst (c s).

Definition state_after {A : Type} (c : M A) (s : checkpoints)
    : checkpoints := snd (c s).

Definition hash_eqb (a b : hash) : bool :=
  if hash_eq_dec a b then true else false.

End State.

Declare Scope method_scope.
Delimit Scope method_scope with method.
Notation "x <- c ;; k" := (bind c (fun x => k))
  (at level 61, c at next level, right associativity) : method_scope.
Notation "c ;;; k" := (bind c (fun _ => k))
  (at level 61, right associativity) : method_scope.
Open Scope method_scope.

Definition string_empty (s : string) : bool :=
  match s with
  | EmptyString => true
  | String _ _ => false
  end.

(** ** The methods, in the order of the source *)

Section Methods.
Context {E : Externals}.

(** [if (m.count(height)) CHECK_AND_ASSERT_MES(v == m[height], false, ...)]:
    [true] when control goes on, [false] when the macro returns. *)
Definition check_no_conflict {V : Type} (eqb : V -> V -> bool)
    (m : OMap.t V) (height : N) (v : V) : bool :=
  match OMap.count m height with
  | O => true
  | S _ =>
      match OMap.find m height with
      | Some v' => eqb v v'
      | None => true
      end
  end.

(** [checkpoints::add_checkpoint] *)
Definition add_checkpoint (height : N) (hash_str difficulty_str : string)
    : M bool :=
  match hex_to_pod hash_str with
  | None => ret false
  | Some h =>
      points <- gets m_points ;;
      if negb (check_no_conflict hash_eqb points height h) then ret false
      else
        set_points (OMap.assign points height h) ;;;
        if string_empty difficulty_str then ret true
        else
          match difficulty_of_string difficulty_str with
          | None => ret false
          | Some difficulty =>
              dpoints <- gets m_difficulty_points ;;
              if negb (check_no_conflict N.eqb dpoints height difficulty)
              then ret false
              else
                set_difficulty_points
                  (OMap.assign dpoints height difficulty) ;;;
                ret true
          end
  end.

(** Modelled from the spec: the macros [ADD_CHECKPOINT] and
    [ADD_CHECKPOINT2] are defined in the header, which is not part of the
    sources at hand.  By the spec "a decode failure or insertion conflict
    fails the whole load": the macro calls [add_checkpoint] (without a
    difficulty for [ADD_CHECKPOINT]) and makes the enclosing function
    return [false] when the call fails; [k] is the rest of the enclosing
    function. *)
Definition ADD_CHECKPOINT2 (height : N) (hash_str difficulty_str : string)
    (k : M bool) : M bool :=
  r <- add_checkpoint height hash_str difficulty_str ;;
  if r then k else ret false.

Definition ADD_CHECKPOINT (height : N) (hash_str : string) (k : M bool)
    : M bool :=
  ADD_CHECKPOINT2 height hash_str EmptyString k.

(** [checkpoints::is_in_checkpoint_zone] *)
Definition is_in_checkpoint_zone (height : N) : M bool :=
  gets (fun s =>
    negb (OMap.empty (m_points s))
    && (height <=? OMap.key_at (m_points s)
                     (OMap.prev (OMap.end_ (m_points s))))).

(** [checkpoints::check_block], the three-argument overload: the pair is
    the returned value and the out-parameter [is_a_checkpoint]. *)
Definition check_block (height : N) (h : hash) : M (bool * bool) :=
  it <- gets (fun s => OMap.find (m_points s) height) ;;
  match it with
  | None => ret (true, false)
  | Some h' =>
      if hash_eqb h' h then ret (true, true) else ret (false, true)
  end.

(** [checkpoints::check_block], the two-argument overload. *)
Definition check_block_ignored (height : N) (h : hash) : M bool :=
  r <- check_block height h ;;
  ret (fst r).

(** [checkpoints::is_alternative_block_allowed] *)
Definition is_alternative_block_allowed (blockchain_height block_height : N)
    : M bool :=
  if 0 =? block_height then ret false
  else
    it <- gets (fun s => OMap.upper_bound (m_points s) blockchain_height) ;;
    first <- gets (fun s => OMap.begin (m_points s)) ;;
    if Nat.eqb it first then ret true
    else
      checkpoint_height <-
        gets (fun s => OMap.key_at (m_points s) (OMap.prev it)) ;;
      ret (checkpoint_height <? block_height).

(** [checkpoints::get_max_height] *)
Definition get_max_height : M N :=
  gets (fun s =>
    if OMap.empty (m_points s) then 0
    else OMap.rbegin_key (m_points s)).

(** [checkpoints::get_points] and [checkpoints::get_difficulty_points] *)
Definition get_points : M (OMap.t hash) := gets m_points.

Definition get_difficulty_points : M (OMap.t difficulty_type) :=
  gets m_difficulty_points.

(** The loop of [check_for_conflicts] over the entries of the other
    object, in key order; [points] is [m_points] of this object. *)
Fixpoint check_for_conflicts_loop (points : OMap.t hash)
    (other_points : list (N * hash)) : bool :=
  match other_points with
  | [] => true
  | (height, h) :: rest =>
      if check_no_conflict hash_eqb points height h
      then check_for_conflicts_loop points rest
      else false
  end.

(** [checkpoints::check_for_conflicts] *)
Definition check_for_conflicts (other : checkpoints) : M bool :=
  points <- gets m_points ;;
  ret (check_for_conflicts_loop points (result get_points other)).

(** [checkpoints::init_default_checkpoints]: each branch is a sequence of
    [ADD_CHECKPOINT2] lines followed by [return true], written here as the
    table of the lines and the loop that runs them. *)
Fixpoint add_default_checkpoints (table : list (N * string * string))
    : M bool :=
  match table with
  | [] => ret true
  | (height, hash_str, difficulty_str) :: rest =>
      ADD_CHECKPOINT2 height hash_str difficulty_str
        (add_default_checkpoints rest)
  end.

Definition testnet_checkpoints : list (N * string * string) :=
  [(0, "48ca7cd3c8de5b6a4d53d2861fbdaedca141553559f9be9520068053cda8430b", "0x1")]%string.

Definition stagenet_checkpoints : list (N * string * string) :=
  [(0, "76ee3cc98646292206cd3e86f74d88b4dcc1d937088645e9b0cbca84b7ce74eb", "0x1")]%string.

Definition mainnet_checkpoints : list (N * string * string) :=
  [(0,     "1323aa63f4789ae2c87a55020661c7224432f56a7ae74e8b20958bae95fcf7ee", "0x1");
   (500,   "ec0232324f503db6962a453eaa2eedd2084487a4c6db9aec90b3464229c20665", "0x1181d0");
   (1000,  "8234f234ba3a155176048e1cb0ec72c80148080e74fb5d45de9c7b730847a08d", "0x14bef2");
   (1500,  "e9435da0d22297ce35105cce7e7de62510ed8120567626ed619bcb02fabcdacd", "0x16ca9a");
   (2000,  "9090e5a4a06ddc3cbf6a624f75884ef532f00dddde18478c7ede057ec2dc7c0b", "0x1905dc");
   (2500,  "183e841f34d2fc60d29ee2e52dab6eb48e6234b0f1c349d61601ac429d8a40b7", "0x2a09890");
   (3000,  "1b45f342e44a9007c39396a0b8b2f57e5ae251f8e7f9c05f73e77a7ca9e204b6", "0x8b76080");
   (3500,  "7e5fc7016e721bef5e858ce111eacf006f4c16f0ae2bc2a95ec4c3021d6c139f", "0x1abdee75");
   (4000,  "43fadaf4975de4ea5437216eb76571956319baf491af6ec4cda106266065b748", "0x41be8f2b");
   (4500,  "1c53b5867f0f5032bed8b09313b5dc7bfa78aa14952fc5dd649975836abb1a9d", "0xcffbc43e");
   (5000,  "8707e5bdd5fcf79e3a7a0e1f86d6bd13d41633e8a5cb1d9152fd2ee1c09363d1", "0x23a784c00");
   (5500,  "9d0f8d423a0b465b59715405e46dbd1268afbe5e90820fa206edce02ce2c9533", "0x413058c16");
   (6000,  "e31a189978d53ffe8a09aaab20b1b4a8a2e3498efbcbd98268ef1e80a1344cc4", "0x6282f01bc");
   (6500,  "7cb5eddc9be4f5125535bb7d70aebd3a6641487b9c420802507a079322a34749", "0x96510a043");
   (7000,  "ba212ed7977793d01388685399d698d1b93c593429cb6fefc6c0138193ba8abf", "0xd3e166db4");
   (7500,  "5e308c3fd496ce497e147b0c3f099cf6584f77eeda73548b71d11b01eb5df87d", "0x113c2c6365");
   (8000,  "bce52d1f1cf57891d0d1cbe847d2cd5c85c24a32a85fcf9c5ab89869f670b33b", "0x14a84ec875");
   (8500,  "7fd7b2a5c86d0df0cccd9e8e101d5dcd78c87b3278d4094ff9bf374b63675689", "0x18485103b7");
   (9000,  "1fdc5df60d77b2d9ee4854381d3e4bdfea5f543c6b79240c87f5b3ee8e502994", "0x1befe8104c");
   (9500,  "5a834ae80fcc3982011ebe6ab68af56cb630781c6e5c785ef9f94c99a6cb7392", "0x1f90fa29b9");
   (10000, "064b0631e66474f96d021cef287518b8302a6bdcb5d1027186c2844fd0ce2e84", "0x2338a1d5c1");
   (10500, "95d6b7e13929271aa3972f81327d537a876f7ede306ca9be2c796713ea7ffb6f", "0x270ad09f09");
   (11000, "4d3fe1456375a6eae6a549354dcc670af038718ec7332d61f87d305e0285f6ed", "0x2abae6e67b");
   (11500, "fb2a625fd5b87273a9ec08efbc7d06d726c515a4beb5d04bf15115ea2907f5c1", "0x2d02a5c842");
   (12000, "bfd0eb6b3c7d6e9b843ab257d6909c6bce75472068449b9ccb8a07e40e52aeab", "0x2e982f0774");
   (12500, "8c75b60937976ec514137eda7bb3b63cbabbcb7e02c365c923840ec2f9f2090e", "0x307e8de8a7");
   (13000, "9ad45619973fe23a7968f34372c61b6a1df2b670e0f5980902a4a8f682ffe730", "0x34530a120f");
   (13500, "ec437b4ab27a0fcae2912c21596f9b1fbcb7eee3df2d74385c60f2b9b5e8693f", "0x3b795841ef");
   (14000, "15e841d9b12acb0103d4a5f962706b89ffdbd4e4669f9f5be09edb55f00919d3", "0x450a52572d");
   (14500, "93959a52284923c26578ed3ec7f7623dad9f3459d958ba7dfad01690cb7fb6e8", "0x53f5e65092");
   (15000, "f0957fcfb3e7f452893272b043ee99cc68703c9aa97efdfb23acaa883d4c0b4f", "0x65ec423ad8");
   (15500, "804a67b2cb7f86707347b28e3a487e14c14970c3e175d7e46f6933b3c9627725", "0x7c0be53dae");
   (16000, "d4afd954e4445312ea64473ce2ce06444a3370624143e1d6129ca75216f23b8e", "0x97a9e3e315");
   (16500, "650ccb665eec209a4b342d395c90637cca154f27b3699cafb39032fa3bbcf58a", "0xb7a6a197e1")]%string.

Definition init_default_checkpoints (nettype : network_type) : M bool :=
  match nettype with
  | TESTNET => add_default_checkpoints testnet_checkpoints
  | STAGENET => add_default_checkpoints stagenet_checkpoints
  | MAINNET => add_default_checkpoints mainnet_checkpoints
  end.

(** The [for] loop of [load_checkpoints_from_json] over [hashes.hashlines],
    with [prev_max_height] read before the loop. *)
Fixpoint load_hashlines (prev_max_height : N) (lines : list t_hashline)
    : M bool :=
  match lines with
  | [] => ret true
  | it :: rest =>
      let height := hl_height it in
      if height <=? prev_max_height then load_hashlines prev_max_height rest
      else
        let blockhash := hl_hash it in
        ADD_CHECKPOINT height blockhash
          (load_hashlines prev_max_height rest)
  end.

(** [checkpoints::load_checkpoints_from_json] *)
Definition load_checkpoints_from_json (json_hashfile_fullpath : string)
    : M bool :=
  if negb (file_exists json_hashfile_fullpath) then ret true
  else
    prev_max_height <- get_max_height ;;
    match load_t_from_json_file json_hashfile_fullpath with
    | None => ret false
    | Some hashes => load_hashlines prev_max_height (hashlines hashes)
    end.

(** [checkpoints::load_checkpoints_from_dns]: the body opens with the
    declaration of [records] and an unconditional [return false]; the
    statements after it (the resolver call and the record loop) are never
    reached. *)
Definition load_checkpoints_from_dns (nettype : network_type) : M bool :=
  ret false.

(** [checkpoints::load_new_checkpoints]; [result &= ...] evaluates its
    right-hand side whatever [result] holds. *)
Definition load_new_checkpoints (json_hashfile_fullpath : string)
    (nettype : network_type) (dns : bool) : M bool :=
  res <- load_checkpoints_from_json json_hashfile_fullpath ;;
  if dns then
    r <- load_checkpoints_from_dns nettype ;;
    ret (res && r)
  else ret res.

End Methods.

(** The five ways through [add_checkpoint]: the pair is what the call
    returns and the state it leaves. *)

Section Outcomes.
Context {E : Externals}.
Implicit Types (s : checkpoints) (height : N).

Inductive add_checkpoint_outcome height hash_str difficulty_str s
    : bool * checkpoints -> Prop :=
| Outcome_bad_hash :
    hex_to_pod hash_str = None ->
    add_checkpoint_outcome height hash_str difficulty_str s (false, s)
| Outcome_hash_conflict h :
    hex_to_pod hash_str = Some h ->
    check_no_conflict hash_eqb (m_points s) height h = false ->
    add_checkpoint_outcome height hash_str difficulty_str s (false, s)
| Outcome_hash_only h :
    hex_to_pod hash_str = Some h ->
    check_no_conflict hash_eqb (m_points s) height h = true ->
    string_empty difficulty_str = true ->
    add_checkpoint_outcome height hash_str difficulty_str s
      (true, mk_checkpoints (OMap.assign (m_points s) height h)
                            (m_difficulty_points s))
| Outcome_difficulty_rejected h :
    hex_to_pod hash_str = Some h ->
    check_no_conflict hash_eqb (m_points s) height h = true ->
    string_empty difficulty_str = false ->
    (difficulty_of_string difficulty_str = None
     \/ exists d, difficulty_of_string difficulty_str = Some d /\
          check_no_conflict N.eqb (m_difficulty_points s) height d = false) ->
    add_checkpoint_outcome height hash_str difficulty_str s
      (false, mk_checkpoints (OMap.assign (m_points s) height h)
                             (m_difficulty_points s))
| Outcome_both h d :
    hex_to_pod hash_str = Some h ->
    check_no_conflict hash_eqb (m_points s) height h = true ->
    string_empty difficulty_str = false ->
    difficulty_of_string difficulty_str = Some d ->
    check_no_conflict N.eqb (m_difficulty_points s) height d = true ->
    add_checkpoint_outcome height hash_str difficulty_str s
      (true, mk_checkpoints (OMap.assign (m_points s) height h)
               (OMap.assign (m_difficulty_points s) height d)).

End Outcomes.

Arguments check_no_conflict : simpl never.

(** ** The words of the spec, for comparison with the methods

    Section 4.1 of the spec describes the hash-anchor insert and the merge
    with another store.  These two definitions follow its sentences, not the
    source. *)

Section SpecWords.
Context {E : Externals}.

(** "if [height] absent, insert and succeed.  If present with equal
    [hash], succeed (no-op).  If present with differing [hash], fail with
    [ConflictError] and leave the store unchanged." *)
Definition spec_insert_hash_anchor (height : N) (h : hash) : M bool :=
  fun s =>
    match OMap.find (m_points s) height with
    | None =>
        (true, mk_checkpoints (OMap.assign (m_points s) height h)
                              (m_difficulty_points s))
    | Some h' => if hash_eqb h h' then (true, s) else (false, s)
    end.

(** "for every hash anchor in [other_store], apply [insert_hash_anchor];
    on first conflict, abort". *)
Fixpoint spec_merge_anchors (anchors : list (N * hash)) : M bool :=
  match anchors with
  | [] => ret true
  | (height, h) :: rest =>
      r <- spec_insert_hash_anchor height h ;;
      if r then spec_merge_anchors rest else ret false
  end.

Definition spec_merge (other : checkpoints) : M bool :=
  spec_merge_anchors (m_points other).

(** ** Vocabulary of the statements *)

(** The heights that carry a hash anchor. *)
Definition anchored_heights (s : checkpoints) : list N :=
  OMap.keys (m_points s).

(** The invariant that [std::map] gives both members. *)
Definition well_formed (s : checkpoints) : Prop :=
  OMap.ordered (m_points s) = true
  /\ OMap.ordered (m_difficulty_points s) = true.

(** [g] is the greatest anchored height that is at or below [bound]. *)
Definition greatest_anchor_at_or_below (s : checkpoints) (bound g : N)
    : Prop :=
  In g (anchored_heights s) /\ g <= bound
  /\ forall k, In k (anchored_heights s) -> k <= bound -> k <= g.

(** [g] is the greatest anchored height. *)
Definition greatest_anchor (s : checkpoints) (g : N) : Prop :=
  In g (anchored_heights s)
  /\ forall k, In k (anchored_heights s) -> k <= g.

(** [s'] is [s] with exactly the anchors of the records of [lines] that
    lie strictly above [baseline]: each of them decodes and is anchored in
    [s'], every other height is as in [s], and so is the difficulty
    map. *)
Definition anchors_added (baseline : N) (lines : list t_hashline)
    (s s' : checkpoints) : Prop :=
  m_difficulty_points s' = m_difficulty_points s
  /\ (forall l, In l lines -> baseline < hl_height l ->
        exists h, hex_to_pod (hl_hash l) = Some h
                  /\ OMap.find (m_points s') (hl_height l) = Some h)
  /\ (forall k,
        (forall l, In l lines -> baseline < hl_height l -> hl_height l <> k) ->
        OMap.find (m_points s') k = OMap.find (m_points s) k).

End SpecWords.

(** ** Invariants and conditions used by the further properties *)

Section Invariants.
Context {E : Externals}.

(** Every height that carries a difficulty anchor carries a hash anchor. *)
Definition difficulty_within_points (s : checkpoints) : Prop :=
  forall k d,
    OMap.find (m_difficulty_points s) k = Some d ->
    exists h, OMap.find (m_points s) k = Some h.

(** [t] holds every anchor of [s], hash and difficulty, with its value. *)
Definition extends (s t : checkpoints) : Prop :=
  (forall k h, OMap.find (m_points s) k = Some h ->
               OMap.find (m_points t) k = Some h)
  /\ (forall k d, OMap.find (m_difficulty_points s) k = Some d ->
                  OMap.find (m_difficulty_points t) k = Some d).

End Invariants.

(** ** Conditions on files and tables used by the further properties *)

Section LoadConditions.
Context {E : Externals}.

(** Every record above the baseline carries a hash string that decodes. *)
Definition records_decode (baseline : N) (lines : list t_hashline) : Prop :=
  forall l, In l lines -> baseline < hl_height l ->
            exists h, hex_to_pod (hl_hash l) = Some h.

(** Records above the baseline at one height decode to one hash. *)
Definition records_agree (baseline : N) (lines : list t_hashline) : Prop :=
  forall l1 l2,
    In l1 lines -> In l2 lines ->
    baseline < hl_height l1 -> hl_height l1 = hl_height l2 ->
    hex_to_pod (hl_hash l1) = hex_to_pod (hl_hash l2).

(** The table that [init_default_checkpoints] runs for a network. *)
Definition default_table (nettype : network_type)
    : list (N * string * string) :=
  match nettype with
  | TESTNET => testnet_checkpoints
  | STAGENET => stagenet_checkpoints
  | MAINNET => mainnet_checkpoints
  end.

Definition table_heights (table : list (N * string * string)) : list N :=
  map (fun e => fst (fst e)) table.

(** Every line of the table carries a hash string that decodes and a
    difficulty string that is empty or decodes. *)
Definition table_decodes (table : list (N * string * string)) : Prop :=
  forall height hash_str difficulty_str,
    In (height, hash_str, difficulty_str) table ->
    (exists h, hex_to_pod hash_str = Some h)
    /\ (difficulty_str = EmptyString
        \/ exists d, difficulty_of_string difficulty_str = Some d).

Fixpoint distinct_heights (heights : list N) : bool :=
  match heights with
  | [] => true
  | k :: rest => negb (existsb (N.eqb k) rest) && distinct_heights rest
  end.

End LoadConditions.

(** Comparisons on heights, from booleans to propositions. *)
Ltac height_cases :=
  repeat match goal with
  | H : (_ <? _) = true |- _ => apply N.ltb_lt in H
  | H : (_ <? _) = false |- _ => apply N.ltb_ge in H
  | H : (_ =? _) = true |- _ => apply N.eqb_eq in H
  | H : (_ =? _) = false |- _ => apply N.eqb_neq in H
  end.

(** ** A concrete set of collaborators, to run the methods on examples *)

Module Fixture.

Definition hex_digit (c : ascii) : option N :=
  let n := N_of_ascii c in
  if (48 <=? n) && (n <=? 57) then Some (n - 48)
  else if (97 <=? n) && (n <=? 102) then Some (n - 87)
  else if (65 <=? n) && (n <=? 70) then Some (n - 55)
  else None.

Fixpoint hex_to_bytes (s : string) : option (list N) :=
  match s with
  | EmptyString => Some []
  | String a (String b rest) =>
      match hex_digit a, hex_digit b, hex_to_bytes rest with
      | Some x, Some y, Some l => Some (16 * x + y :: l)
      | _, _, _ => None
      end
  | String _ EmptyString => None
  end.

(** Modelled from the spec: the hex-to-binary decoder "converts a
    fixed-length hex string into the binary hash representation;
    malformed input is a decode error".  A hash is 32 bytes. *)
Definition decode_hash (s : string) : option (list N) :=
  match hex_to_bytes s with
  | Some l => if Nat.eqb (List.length l) 32 then Some l else None
  | None => None
  end.

Fixpoint hex_value (acc : N) (s : string) : option N :=
  match s with
  | EmptyString => Some acc
  | String c rest =>
      match hex_digit c with
      | Some d => hex_value (16 * acc + d) rest
      | None => None
      end
  end.

Definition dec_digit (c : ascii) : option N :=
  let n := N_of_ascii c in
  if (48 <=? n) && (n <=? 57) then Some (n - 48) else None.

Fixpoint dec_value (acc : N) (s : string) : option N :=
  match s with
  | EmptyString => Some acc
  | String c rest =>
      match dec_digit c with
      | Some d => dec_value (10 * acc + d) rest
      | None => None
      end
  end.

(** Modelled from the spec: the difficulty is read from a numeric string
    and a "malformed numeric string" is an error.  The fixture reads
    [0x] followed by hex digits, the form of the default table, or
    decimal digits. *)
Definition decode_difficulty (s : string) : option difficulty_type :=
  match s with
  | EmptyString => None
  | String "0" (String "x" (String c rest)) => hex_value 0 (String c rest)
  | String _ _ => dec_value 0 s
  end.

Definition hash_500 : string :=
  "ec0232324f503db6962a453eaa2eedd2084487a4c6db9aec90b3464229c20665".

Definition hash_1000 : string :=
  "8234f234ba3a155176048e1cb0ec72c80148080e74fb5d45de9c7b730847a08d".

Definition hash_1500 : string :=
  "e9435da0d22297ce35105cce7e7de62510ed8120567626ed619bcb02fabcdacd".

(** The files of the fixture: one that parses and loads, one that parses
    and whose second record is not hex, one that exists and does not
    parse.  No other path exists. *)
Definition files : list (string * option t_hash_json) :=
  [("checkpoints.json"%string,
    Some (mk_hash_json [mk_hashline 400 hash_500;
                        mk_hashline 17000 hash_1000;
                        mk_hashline 17500 hash_1500]));
   ("partial.json"%string,
    Some (mk_hash_json [mk_hashline 17000 hash_1000;
                        mk_hashline 17500 "zz";
                        mk_hashline 18000 hash_1500]));
   ("broken.json"%string, None)].

Fixpoint lookup_file (fs : list (string * option t_hash_json))
    (path : string) : option (option t_hash_json) :=
  match fs with
  | [] => None
  | (p, content) :: rest =>
      if String.eqb p path then Some content else lookup_file rest path
  end.

Definition file_present (path : string) : bool :=
  match lookup_file files path with
  | Some _ => true
  | None => false
  end.

Definition parse_file (path : string) : option t_hash_json :=
  match lookup_file files path with
  | Some content => content
  | None => None
  end.

#[export] Instance externals : Externals := {|
  hash := list N;
  hash_eq_dec := list_eq_dec N.eq_dec;
  hex_to_pod := decode_hash;
  difficulty_of_string := decode_difficulty;
  file_exists := file_present;
  load_t_from_json_file := parse_file
|}.

(** The store of the mainnet defaults, and a store with anchors exactly at
    500, 1000 and 1500. *)
Definition mainnet_store : checkpoints :=
  state_after (init_default_checkpoints MAINNET) new_checkpoints.

Definition h500 : list N :=
  match decode_hash hash_500 with Some h => h | None => [] end.

Definition h1000 : list N :=
  match decode_hash hash_1000 with Some h => h | None => [] end.

Definition h1500 : list N :=
  match decode_hash hash_1500 with Some h => h | None => [] end.

Definition three_anchors : checkpoints :=
  mk_checkpoints [(500, h500); (1000, h1000); (1500, h1500)] [].

End Fixture.

Ltac unfold_method :=
  unfold result, state_after, bind, ret, gets, set_points,
    set_difficulty_points; simpl.

(** * Properties *)

(** ** The ordered map *)

Module OMapFacts.
Import OMap.

Section Facts.
Context {V : Type}.
Implicit Types (m : OMap.t V) (k : N) (v : V).

Lemma find_assign_same m k v : find (assign m k v) k = Some v.
Proof.
  induction m as [|[k' v'] rest IH]; simpl.
  - now rewrite N.ltb_irrefl, N.eqb_refl.
  - destruct (k <? k') eqn:Hlt; simpl.
    + now rewrite N.ltb_irrefl, N.eqb_refl.
    + destruct (k =? k') eqn:Heq; simpl.
      * now rewrite N.ltb_irrefl, N.eqb_refl.
      * now rewrite Hlt, Heq.
Qed.

Lemma find_assign_other m k v k' :
  k' <> k -> find (assign m k v) k' = find m k'.
Proof.
  intros Hne.
  induction m as [|[k0 v0] rest IH]; simpl.
  - destruct (k' <? k) eqn:Hlt; [reflexivity|].
    destruct (k' =? k) eqn:Heq; [|reflexivity].
    apply N.eqb_eq in Heq. contradiction.
  - destruct (k <? k0) eqn:Hlt; simpl.
    + destruct (k' <? k) eqn:H1.
      * apply N.ltb_lt in Hlt, H1.
        assert (H2 : (k' <? k0) = true) by (apply N.ltb_lt; lia).
        now rewrite H2.
      * destruct (k' =? k) eqn:H2; [|reflexivity].
        apply N.eqb_eq in H2. contradiction.
    + destruct (k =? k0) eqn:Heq; simpl.
      * apply N.eqb_eq in Heq. subst k0.
        destruct (k' <? k) eqn:H1; [reflexivity|].
        destruct (k' =? k) eqn:H2; [|reflexivity].
        apply N.eqb_eq in H2. contradiction.
      * now rewrite IH.
Qed.

Lemma assign_same_value m k v : find m k = Some v -> assign m k v = m.
Proof.
  induction m as [|[k' v'] rest IH]; simpl; [discriminate|].
  destruct (k <? k') eqn:Hlt; [discriminate|].
  destruct (k =? k') eqn:Heq.
  - apply N.eqb_eq in Heq. intros [= ->]. now subst.
  - intros H. now rewrite IH.
Qed.

Lemma assign_idempotent m k v :
  assign (assign m k v) k v = assign m k v.
Proof. apply assign_same_value, find_assign_same. Qed.

Lemma assign_not_nil m k v : assign m k v <> [].
Proof.
  destruct m as [|[k' v'] rest]; simpl; [discriminate|].
  destruct (k <? k'); [discriminate|].
  destruct (k =? k'); discriminate.
Qed.

Lemma count_find m k :
  count m k = match find m k with Some _ => 1%nat | None => 0%nat end.
Proof. reflexivity. Qed.

(** In an ordered map the first key is below every later key. *)
Lemma ordered_head_lt k v m :
  ordered ((k, v) :: m) = true ->
  forall k', In k' (keys m) -> k < k'.
Proof.
  revert k v.
  induction m as [|[k0 v0] rest IH]; intros k v Hord k' Hin.
  - destruct Hin.
  - simpl in Hord. apply andb_prop in Hord as [H1 H2].
    apply N.ltb_lt in H1.
    destruct Hin as [<-|Hin]; [exact H1|].
    specialize (IH k0 v0 H2 k' Hin). lia.
Qed.

Lemma ordered_tail k v m : ordered ((k, v) :: m) = true -> ordered m = true.
Proof. simpl. intros H. now apply andb_prop in H. Qed.

Lemma key_lt_head_assign m k v k0 :
  key_lt_head k0 m = true -> k0 < k -> key_lt_head k0 (assign m k v) = true.
Proof.
  destruct m as [|[k' v'] rest]; simpl; intros H Hlt.
  - now apply N.ltb_lt.
  - destruct (k <? k'); simpl; [now apply N.ltb_lt|].
    destruct (k =? k'); simpl; [now apply N.ltb_lt|exact H].
Qed.

(** [m[k] = v] keeps the map ordered. *)
Lemma ordered_assign m k v :
  ordered m = true -> ordered (assign m k v) = true.
Proof.
  induction m as [|[k' v'] rest IH]; intros Hord; [reflexivity|].
  simpl. destruct (k <? k') eqn:Hlt.
  - change (ordered ((k, v) :: (k', v') :: rest))
      with ((k <? k') && ordered ((k', v') :: rest)).
    now rewrite Hlt, Hord.
  - destruct (k =? k') eqn:Heq.
    + apply N.eqb_eq in Heq. now subst.
    + simpl in Hord. apply andb_prop in Hord as [H1 H2].
      simpl. rewrite (IH H2), andb_true_r.
      apply key_lt_head_assign; [exact H1|].
      apply N.ltb_ge in Hlt. apply N.eqb_neq in Heq. lia.
Qed.

(** On an ordered map [find] is membership. *)
Lemma find_Some_In m k v : find m k = Some v -> In (k, v) m.
Proof.
  induction m as [|[k' v'] rest IH]; simpl; [discriminate|].
  destruct (k <? k'); [discriminate|].
  destruct (k =? k') eqn:Heq.
  - apply N.eqb_eq in Heq. intros [= ->]. left. now subst.
  - intros H. right. now apply IH.
Qed.

Lemma In_find_Some m k v :
  ordered m = true -> In (k, v) m -> find m k = Some v.
Proof.
  induction m as [|[k' v'] rest IH]; intros Hord Hin; [destruct Hin|].
  simpl. destruct Hin as [[= -> ->]|Hin].
  - now rewrite N.ltb_irrefl, N.eqb_refl.
  - assert (Hlt : k' < k).
    { apply (ordered_head_lt _ _ _ Hord). unfold keys.
      change k with (fst (k, v)). now apply in_map. }
    assert (H1 : (k <? k') = false) by (apply N.ltb_ge; lia).
    assert (H2 : (k =? k') = false) by (apply N.eqb_neq; lia).
    rewrite H1, H2. apply IH; [|exact Hin].
    eapply ordered_tail; eauto.
Qed.

Lemma find_Some_key m k v : find m k = Some v -> In k (keys m).
Proof.
  intros H. apply find_Some_In in H. unfold keys.
  change k with (fst (k, v)). now apply in_map.
Qed.

Lemma In_key_find m k :
  ordered m = true -> In k (keys m) -> exists v, find m k = Some v.
Proof.
  intros Hord Hin. unfold keys in Hin. apply in_map_iff in Hin.
  destruct Hin as [[k' v] [Hk Hin]]. simpl in Hk. subst k'.
  exists v. now apply In_find_Some.
Qed.

Lemma keys_assign m k v k' :
  In k' (keys (assign m k v)) <-> k' = k \/ In k' (keys m).
Proof.
  induction m as [|[k0 v0] rest IH]; simpl.
  - intuition.
  - destruct (k <? k0); simpl; [intuition|].
    destruct (k =? k0) eqn:Heq; simpl.
    + apply N.eqb_eq in Heq. subst. intuition.
    + rewrite IH. intuition.
Qed.

(** [upper_bound] stays inside the map. *)
Lemma upper_bound_le_length m k : (upper_bound m k <= List.length m)%nat.
Proof.
  induction m as [|[k' v'] rest IH]; simpl; [lia|].
  destruct (k <? k'); simpl; lia.
Qed.

(** The two positions the methods dereference lie inside the map. *)
Lemma prev_upper_bound_inside m k n :
  upper_bound m k = S n -> (prev (upper_bound m k) < List.length m)%nat.
Proof.
  intros Hub. pose proof (upper_bound_le_length m k) as Hle.
  rewrite Hub in *. simpl. lia.
Qed.

Lemma prev_end_inside m :
  empty m = false -> (prev (end_ m) < List.length m)%nat.
Proof.
  destruct m as [|e rest]; [discriminate|]. intros _.
  unfold end_, prev. simpl. lia.
Qed.

(** [upper_bound] is [begin()] exactly when every key is above [k]. *)
Lemma upper_bound_begin m k :
  ordered m = true ->
  upper_bound m k = begin m ->
  forall k', In k' (keys m) -> k < k'.
Proof.
  intros Hord Hub k' Hin. unfold begin in Hub.
  destruct m as [|[k0 v0] rest]; [destruct Hin|].
  simpl in Hub. destruct (k <? k0) eqn:Hlt; [|discriminate].
  apply N.ltb_lt in Hlt.
  destruct Hin as [<-|Hin]; [exact Hlt|].
  pose proof (ordered_head_lt _ _ _ Hord k' Hin). lia.
Qed.

Lemma upper_bound_begin_conv m k :
  (forall k', In k' (keys m) -> k < k') -> upper_bound m k = begin m.
Proof.
  intros H. destruct m as [|[k0 v0] rest]; [reflexivity|].
  simpl. assert (Hlt : k < k0) by (apply H; now left).
  apply N.ltb_lt in Hlt. now rewrite Hlt.
Qed.

(** When [upper_bound] is not [begin()], the entry before it exists and
    carries the greatest key that is at or below [k]. *)
Lemma key_at_upper_bound m k n :
  ordered m = true ->
  upper_bound m k = S n ->
  let g := key_at m (prev (upper_bound m k)) in
  In g (keys m) /\ g <= k /\
  forall k', In k' (keys m) -> k' <= k -> k' <= g.
Proof.
  revert n.
  induction m as [|[k0 v0] rest IH]; intros n Hord Hub; [discriminate|].
  simpl in Hub |- *. destruct (k <? k0) eqn:Hlt; [discriminate|].
  apply N.ltb_ge in Hlt. injection Hub as Hub. simpl.
  destruct (upper_bound rest k) as [|n'] eqn:Hrest.
  - unfold key_at. simpl. repeat split.
    + now left.
    + exact Hlt.
    + intros k' [<-|Hin] Hle; [lia|].
      pose proof (upper_bound_begin rest k (ordered_tail _ _ _ Hord) Hrest
                    k' Hin). lia.
  - specialize (IH n' (ordered_tail _ _ _ Hord) eq_refl).
    simpl in IH. destruct IH as (Hin & Hle & Hmax).
    change (key_at ((k0, v0) :: rest) (S n')) with (key_at rest n').
    repeat split.
    + now right.
    + exact Hle.
    + intros k' [<-|Hin'] Hle'.
      * pose proof (ordered_head_lt _ _ _ Hord _ Hin). lia.
      * now apply Hmax.
Qed.

(** In a non-empty ordered map the last entry carries the greatest key. *)
Lemma key_at_last m :
  ordered m = true -> m <> [] ->
  In (rbegin_key m) (keys m) /\
  forall k', In k' (keys m) -> k' <= rbegin_key m.
Proof.
  unfold rbegin_key, end_, prev.
  induction m as [|[k0 v0] rest IH]; intros Hord Hne; [contradiction|].
  destruct rest as [|e rest'].
  - unfold key_at. simpl. split; [now left|].
    intros k' [<-|[]]. lia.
  - assert (Hne' : e :: rest' <> []) by discriminate.
    specialize (IH (ordered_tail _ _ _ Hord) Hne').
    destruct IH as [Hin Hmax].
    change (key_at ((k0, v0) :: e :: rest')
              (Nat.pred (List.length ((k0, v0) :: e :: rest'))))
      with (key_at (e :: rest') (Nat.pred (List.length (e :: rest')))).
    split; [now right|].
    intros k' [<-|Hin'].
    + pose proof (ordered_head_lt _ _ _ Hord _ Hin). simpl fst. lia.
    + now apply Hmax.
Qed.

End Facts.

End OMapFacts.

(** ** The methods *)

Section MethodFacts.
Context {E : Externals}.
Implicit Types (s : checkpoints) (height : N) (h : hash).

Lemma hash_eqb_refl h : hash_eqb h h = true.
Proof. unfold hash_eqb. destruct (hash_eq_dec h h); congruence. Qed.

Lemma hash_eqb_true h h' : hash_eqb h h' = true -> h = h'.
Proof. unfold hash_eqb. destruct (hash_eq_dec h h'); congruence. Qed.

Lemma hash_eqb_neq h h' : h <> h' -> hash_eqb h h' = false.
Proof. unfold hash_eqb. destruct (hash_eq_dec h h'); congruence. Qed.

Lemma check_no_conflict_find {V : Type} (eqb : V -> V -> bool)
    (m : OMap.t V) height (v : V) :
  check_no_conflict eqb m height v =
  match OMap.find m height with
  | Some v' => eqb v v'
  | None => true
  end.
Proof.
  unfold check_no_conflict, OMap.count.
  now destruct (OMap.find m height).
Qed.

Lemma check_no_conflict_after_assign {V : Type} (eqb : V -> V -> bool)
    (m : OMap.t V) height (v : V) :
  eqb v v = true ->
  check_no_conflict eqb (OMap.assign m height v) height v = true.
Proof.
  intros H.
  now rewrite check_no_conflict_find, OMapFacts.find_assign_same.
Qed.

(** The outcome of [add_checkpoint], branch by branch. *)
Lemma add_checkpoint_bad_hash height hash_str difficulty_str s :
  hex_to_pod hash_str = None ->
  add_checkpoint height hash_str difficulty_str s = (false, s).
Proof. intros H. unfold add_checkpoint. now rewrite H. Qed.

Lemma add_checkpoint_hash_conflict height hash_str difficulty_str s h :
  hex_to_pod hash_str = Some h ->
  check_no_conflict hash_eqb (m_points s) height h = false ->
  add_checkpoint height hash_str difficulty_str s = (false, s).
Proof.
  intros H1 H2. unfold add_checkpoint. rewrite H1.
  unfold_method. now rewrite H2.
Qed.

Lemma add_checkpoint_no_difficulty height hash_str s h :
  hex_to_pod hash_str = Some h ->
  check_no_conflict hash_eqb (m_points s) height h = true ->
  add_checkpoint height hash_str EmptyString s =
  (true, mk_checkpoints (OMap.assign (m_points s) height h)
                        (m_difficulty_points s)).
Proof.
  intros H1 H2. unfold add_checkpoint. rewrite H1.
  unfold_method. now rewrite H2.
Qed.

Lemma add_checkpoint_bad_difficulty height hash_str difficulty_str s h :
  hex_to_pod hash_str = Some h ->
  check_no_conflict hash_eqb (m_points s) height h = true ->
  string_empty difficulty_str = false ->
  difficulty_of_string difficulty_str = None ->
  add_checkpoint height hash_str difficulty_str s =
  (false, mk_checkpoints (OMap.assign (m_points s) height h)
                         (m_difficulty_points s)).
Proof.
  intros H1 H2 H3 H4. unfold add_checkpoint. rewrite H1.
  unfold_method. now rewrite H2, H3, H4.
Qed.

Lemma add_checkpoint_difficulty_conflict
    height hash_str difficulty_str s h d :
  hex_to_pod hash_str = Some h ->
  check_no_conflict hash_eqb (m_points s) height h = true ->
  string_empty difficulty_str = false ->
  difficulty_of_string difficulty_str = Some d ->
  check_no_conflict N.eqb (m_difficulty_points s) height d = false ->
  add_checkpoint height hash_str difficulty_str s =
  (false, mk_checkpoints (OMap.assign (m_points s) height h)
                         (m_difficulty_points s)).
Proof.
  intros H1 H2 H3 H4 H5. unfold add_checkpoint. rewrite H1.
  unfold_method. rewrite H2. simpl. rewrite H3, H4. simpl. now rewrite H5.
Qed.

Lemma add_checkpoint_with_difficulty height hash_str difficulty_str s h d :
  hex_to_pod hash_str = Some h ->
  check_no_conflict hash_eqb (m_points s) height h = true ->
  string_empty difficulty_str = false ->
  difficulty_of_string difficulty_str = Some d ->
  check_no_conflict N.eqb (m_difficulty_points s) height d = true ->
  add_checkpoint height hash_str difficulty_str s =
  (true, mk_checkpoints (OMap.assign (m_points s) height h)
           (OMap.assign (m_difficulty_points s) height d)).
Proof.
  intros H1 H2 H3 H4 H5. unfold add_checkpoint. rewrite H1.
  unfold_method. rewrite H2. simpl. rewrite H3, H4. simpl. now rewrite H5.
Qed.

Lemma add_checkpoint_cases height hash_str difficulty_str s :
  add_checkpoint_outcome height hash_str difficulty_str s
    (add_checkpoint height hash_str difficulty_str s).
Proof.
  destruct (hex_to_pod hash_str) as [h|] eqn:Hhex.
  2:{ rewrite add_checkpoint_bad_hash by assumption. now constructor. }
  destruct (check_no_conflict hash_eqb (m_points s) height h) eqn:Hc.
  2:{ erewrite add_checkpoint_hash_conflict by eassumption.
      econstructor 2; eassumption. }
  destruct (string_empty difficulty_str) eqn:Hempty.
  { destruct difficulty_str; [|discriminate].
    erewrite add_checkpoint_no_difficulty by eassumption.
    econstructor 3; eauto. }
  destruct (difficulty_of_string difficulty_str) as [d|] eqn:Hd.
  2:{ erewrite add_checkpoint_bad_difficulty by eassumption.
      econstructor 4; eauto. }
  destruct (check_no_conflict N.eqb (m_difficulty_points s) height d)
    eqn:Hdc.
  - erewrite add_checkpoint_with_difficulty by eassumption.
    econstructor 5; eauto.
  - erewrite add_checkpoint_difficulty_conflict by eassumption.
    econstructor 4; eauto.
Qed.

End MethodFacts.

(** ** The insert *)

Section InsertFacts.
Context {E : Externals}.
Implicit Types (s : checkpoints) (height : N) (h : hash).

(** [add_checkpoint] keeps both maps ordered. *)
Lemma add_checkpoint_well_formed height hash_str difficulty_str s :
  well_formed s ->
  well_formed (state_after (add_checkpoint height hash_str difficulty_str) s).
Proof.
  intros [Hp Hd]. unfold state_after.
  destruct (add_checkpoint_cases height hash_str difficulty_str s);
    simpl; split; simpl; auto; now apply OMapFacts.ordered_assign.
Qed.

Lemma new_checkpoints_well_formed : well_formed new_checkpoints.
Proof. split; reflexivity. Qed.


(** C3.  When [height] already carries the hash anchor [h1], a call of
    [add_checkpoint] at [height] with a valid hex hash that decodes to a
    different [h2] fails whatever the difficulty string is, and leaves the
    object exactly as it was: both maps are unchanged and the anchor at
    [height] is still [h1]. *)
Theorem add_checkpoint_conflict_rejected
    height hash_str difficulty_str s h1 h2 :
  OMap.find (m_points s) height = Some h1 ->
  hex_to_pod hash_str = Some h2 ->
  h2 <> h1 ->
  result (add_checkpoint height hash_str difficulty_str) s = false
  /\ state_after (add_checkpoint height hash_str difficulty_str) s = s
  /\ OMap.find
       (m_points
          (state_after (add_checkpoint height hash_str difficulty_str) s))
       height = Some h1.
Proof.
  intros Hfind Hhex Hne.
  assert (Hrun : add_checkpoint height hash_str difficulty_str s
                 = (false, s)).
  { apply (add_checkpoint_hash_conflict _ _ _ _ h2 Hhex).
    rewrite check_no_conflict_find, Hfind.
    now apply hash_eqb_neq. }
  unfold result, state_after. rewrite Hrun. simpl. auto.
Qed.

(** A second identical call returns what the first returned and leaves
    the state the first left. *)
Lemma add_checkpoint_twice height hash_str difficulty_str s :
  add_checkpoint height hash_str difficulty_str
    (state_after (add_checkpoint height hash_str difficulty_str) s)
  = add_checkpoint height hash_str difficulty_str s.
Proof.
  unfold state_after.
  destruct (add_checkpoint_cases height hash_str difficulty_str s)
    as [Hhex|h Hhex Hc|h Hhex Hc He|h Hhex Hc He Hd|h d Hhex Hc He Hd Hdc];
    simpl.
  - now apply add_checkpoint_bad_hash.
  - now apply add_checkpoint_hash_conflict with h.
  - destruct difficulty_str; [|discriminate].
    rewrite (add_checkpoint_no_difficulty height hash_str _ h Hhex);
      simpl.
    + now rewrite OMapFacts.assign_idempotent.
    + apply check_no_conflict_after_assign, hash_eqb_refl.
  - destruct Hd as [Hd|[d [Hd Hdc]]].
    + rewrite (add_checkpoint_bad_difficulty height hash_str _ _ h Hhex);
        simpl; auto.
      * now rewrite OMapFacts.assign_idempotent.
      * apply check_no_conflict_after_assign, hash_eqb_refl.
    + rewrite (add_checkpoint_difficulty_conflict
                 height hash_str _ _ h d Hhex); simpl; auto.
      * now rewrite OMapFacts.assign_idempotent.
      * apply check_no_conflict_after_assign, hash_eqb_refl.
  - rewrite (add_checkpoint_with_difficulty
               height hash_str _ _ h d Hhex); simpl; auto.
    + now rewrite !OMapFacts.assign_idempotent.
    + apply check_no_conflict_after_assign, hash_eqb_refl.
    + apply check_no_conflict_after_assign, N.eqb_refl.
Qed.

(** C9, as the code has it.  The hash-anchor insert is idempotent where it
    can insert.  Whenever the pair [(height, hash)] can be inserted (the
    hash string decodes, no other hash is anchored at [height], and the
    difficulty argument is either empty or decodes to a difficulty that no
    other difficulty anchor at [height] contradicts), inserting it twice
    with the same difficulty argument succeeds both times, and the store
    after the two insertions is the store after one.  For every input
    whatever, the second call returns what the first returned and leaves
    the store the first left. *)
Theorem add_checkpoint_idempotent height hash_str difficulty_str s :
  let once := add_checkpoint height hash_str difficulty_str in
  (forall h,
      hex_to_pod hash_str = Some h ->
      (forall h', OMap.find (m_points s) height = Some h' -> h' = h) ->
      (difficulty_str = EmptyString
       \/ exists d, difficulty_of_string difficulty_str = Some d /\
            forall d',
              OMap.find (m_difficulty_points s) height = Some d' -> d' = d) ->
      result once s = true
      /\ result once (state_after once s) = true
      /\ state_after once (state_after once s) = state_after once s)
  /\ once (state_after once s) = once s.
Proof.
  intros once. split; [|apply add_checkpoint_twice].
  intros h Hhex Hh Hd.
  assert (Hfirst : result once s = true).
  { assert (Hc : check_no_conflict hash_eqb (m_points s) height h = true).
    { rewrite check_no_conflict_find.
      destruct (OMap.find (m_points s) height) as [h'|]; [|reflexivity].
      rewrite (Hh h' eq_refl). apply hash_eqb_refl. }
    unfold result, once.
    destruct Hd as [->|[d [Hd Hd']]].
    - now rewrite (add_checkpoint_no_difficulty _ _ _ h Hhex Hc).
    - destruct (string_empty difficulty_str) eqn:He.
      + destruct difficulty_str; [|discriminate].
        now rewrite (add_checkpoint_no_difficulty _ _ _ h Hhex Hc).
      + rewrite (add_checkpoint_with_difficulty _ _ _ _ h d Hhex Hc He Hd);
          [reflexivity|].
        rewrite check_no_conflict_find.
        match goal with
        | |- match ?x with _ => _ end = _ => destruct x as [d'|] eqn:Hf
        end; [|reflexivity].
        rewrite (Hd' d' Hf). apply N.eqb_refl. }
  pose proof (add_checkpoint_twice height hash_str difficulty_str s) as H2.
  subst once. unfold result, state_after in *.
  rewrite H2. auto.
Qed.

End InsertFacts.

(** ** The queries *)

Section QueryFacts.
Context {E : Externals}.
Implicit Types (s : checkpoints) (height : N) (h : hash).

(** C2.  [check_block height h] answers [(ok, is_anchored)]:
    [(true, false)] when [height] has no hash anchor, [(true, true)] when
    the anchor at [height] is [h], and [(false, true)] when the anchor at
    [height] is another hash; in every case the store is left as it
    was. *)
Theorem check_block_verdict height h s :
  (OMap.find (m_points s) height = None ->
     check_block height h s = ((true, false), s))
  /\ (OMap.find (m_points s) height = Some h ->
        check_block height h s = ((true, true), s))
  /\ (forall h', OMap.find (m_points s) height = Some h' -> h' <> h ->
        check_block height h s = ((false, true), s))
  /\ state_after (check_block height h) s = s.
Proof.
  unfold check_block. unfold_method.
  repeat split.
  - now intros ->.
  - intros ->. now rewrite hash_eqb_refl.
  - intros h' -> Hne. now rewrite hash_eqb_neq.
  - destruct (OMap.find (m_points s) height) as [h'|]; [|reflexivity].
    now destruct (hash_eqb h' h).
Qed.

Lemma is_alternative_block_allowed_const blockchain_height block_height s :
  state_after (is_alternative_block_allowed blockchain_height block_height) s
  = s.
Proof.
  unfold is_alternative_block_allowed.
  destruct (0 =? block_height); [reflexivity|].
  unfold_method.
  now destruct (Nat.eqb (OMap.upper_bound (m_points s) blockchain_height)
                  (OMap.begin (m_points s))).
Qed.

Lemma is_alternative_block_allowed_genesis blockchain_height s :
  result (is_alternative_block_allowed blockchain_height 0) s = false.
Proof. reflexivity. Qed.

Lemma is_alternative_block_allowed_before_first
    blockchain_height block_height s :
  block_height <> 0 ->
  (forall k, In k (anchored_heights s) -> blockchain_height < k) ->
  result (is_alternative_block_allowed blockchain_height block_height) s
  = true.
Proof.
  intros Hnz Hall. unfold is_alternative_block_allowed.
  assert (H0 : (0 =? block_height) = false) by (apply N.eqb_neq; lia).
  rewrite H0. unfold_method.
  now rewrite (OMapFacts.upper_bound_begin_conv (m_points s)
                 blockchain_height Hall).
Qed.

Lemma is_alternative_block_allowed_after_anchor
    blockchain_height block_height s :
  well_formed s ->
  block_height <> 0 ->
  ~ (forall k, In k (anchored_heights s) -> blockchain_height < k) ->
  exists g,
    greatest_anchor_at_or_below s blockchain_height g
    /\ result (is_alternative_block_allowed blockchain_height block_height) s
       = (g <? block_height).
Proof.
  intros [Hord _] Hnz Hsome. unfold is_alternative_block_allowed.
  assert (H0 : (0 =? block_height) = false) by (apply N.eqb_neq; lia).
  rewrite H0. unfold_method.
  destruct (OMap.upper_bound (m_points s) blockchain_height) as [|n]
    eqn:Hub.
  - exfalso. apply Hsome.
    now apply OMapFacts.upper_bound_begin.
  - pose proof (OMapFacts.key_at_upper_bound (m_points s)
                  blockchain_height n Hord Hub) as Hg.
    rewrite Hub in Hg. simpl in Hg.
    exists (OMap.key_at (m_points s) n). split; [exact Hg|reflexivity].
Qed.

(** C1.  [is_alternative_block_allowed chain_height fork_height] returns
    [false] when [fork_height] is 0; otherwise [true] when [chain_height]
    is strictly below every anchored height; otherwise [true] exactly
    when [fork_height] is strictly greater than the greatest anchored
    height at or below [chain_height].  With anchors exactly at 500, 1000
    and 1500 (whatever their hashes), [(400, 100)] is allowed,
    [(1600, 1500)] is not and [(1600, 1501)] is.  The store is taken as
    [std::map] keeps it, ordered by height. *)
Theorem is_alternative_block_allowed_policy :
  (forall s chain_height fork_height,
      well_formed s ->
      let allowed :=
        result (is_alternative_block_allowed chain_height fork_height) s in
      (fork_height = 0 -> allowed = false)
      /\ (fork_height <> 0 ->
          (forall k, In k (anchored_heights s) -> chain_height < k) ->
          allowed = true)
      /\ (fork_height <> 0 ->
          ~ (forall k, In k (anchored_heights s) -> chain_height < k) ->
          exists g,
            greatest_anchor_at_or_below s chain_height g
            /\ (allowed = true <-> g < fork_height)))
  /\ (forall (a b c : hash) (d : OMap.t difficulty_type),
        let s := mk_checkpoints [(500, a); (1000, b); (1500, c)] d in
        result (is_alternative_block_allowed 400 100) s = true
        /\ result (is_alternative_block_allowed 1600 1500) s = false
        /\ result (is_alternative_block_allowed 1600 1501) s = true).
Proof.
  split.
  - intros s chain_height fork_height Hwf allowed. subst allowed.
    repeat split.
    + intros ->. apply is_alternative_block_allowed_genesis.
    + now apply is_alternative_block_allowed_before_first.
    + intros Hnz Hsome.
      destruct (is_alternative_block_allowed_after_anchor
                  chain_height fork_height s Hwf Hnz Hsome)
        as (g & Hg & Hres).
      exists g. split; [exact Hg|].
      rewrite Hres. apply N.ltb_lt.
  - intros a b c d s. now subst s.
Qed.

(** C10.  On a store without hash anchors [get_max_height] returns 0 and
    [is_in_checkpoint_zone] is [false] at every height.  On a store with
    hash anchors [get_max_height] returns the greatest anchored height,
    and [is_in_checkpoint_zone height] is [true] exactly when [height] is
    at or below it. *)
Theorem checkpoint_zone_and_max_height :
  (forall (d : OMap.t difficulty_type),
      let s := mk_checkpoints [] d in
      result get_max_height s = 0
      /\ forall height, result (is_in_checkpoint_zone height) s = false)
  /\ (forall s,
        well_formed s ->
        m_points s <> [] ->
        greatest_anchor s (result get_max_height s)
        /\ forall height,
             result (is_in_checkpoint_zone height) s = true
             <-> height <= result get_max_height s).
Proof.
  split.
  - intros d s. now subst s.
  - intros s [Hord _] Hne.
    unfold get_max_height, is_in_checkpoint_zone.
    unfold greatest_anchor, anchored_heights. unfold_method.
    destruct (m_points s) as [|e rest] eqn:Hp; [contradiction|].
    simpl OMap.empty. cbv iota. split.
    + now apply OMapFacts.key_at_last.
    + intros height. simpl negb. rewrite andb_true_l.
      apply N.leb_le.
Qed.

Lemma get_max_height_const s : state_after get_max_height s = s.
Proof. reflexivity. Qed.

Lemma is_in_checkpoint_zone_const height s :
  state_after (is_in_checkpoint_zone height) s = s.
Proof. reflexivity. Qed.

End QueryFacts.

(** ** The conflict check against another object *)

Section MergeFacts.
Context {E : Externals}.
Implicit Types (s other : checkpoints) (height : N) (h : hash).

Lemma hash_eqb_false h h' : hash_eqb h h' = false -> h <> h'.
Proof. intros H ->. rewrite hash_eqb_refl in H. discriminate. Qed.

(** The loop fails exactly when some entry of the other object meets a
    different hash at its height. *)
Lemma check_for_conflicts_loop_false (points : OMap.t hash) others :
  check_for_conflicts_loop points others = false <->
  exists height h h',
    In (height, h) others /\ OMap.find points height = Some h' /\ h <> h'.
Proof.
  induction others as [|[k v] rest IH]; simpl.
  - split; [discriminate|]. now intros (? & ? & ? & [] & _).
  - rewrite check_no_conflict_find.
    destruct (OMap.find points k) as [h0|] eqn:Hfind.
    + destruct (hash_eqb v h0) eqn:Heq.
      * rewrite IH. split.
        -- intros (height & h & h' & Hin & Hf & Hne).
           exists height, h, h'. auto.
        -- intros (height & h & h' & [[= <- <-]|Hin] & Hf & Hne).
           ++ rewrite Hfind in Hf. injection Hf as <-.
              apply hash_eqb_true in Heq. contradiction.
           ++ exists height, h, h'. auto.
      * split; [|reflexivity]. intros _.
        exists k, v, h0. repeat split; auto.
        now apply hash_eqb_false.
    + rewrite IH. split.
      * intros (height & h & h' & Hin & Hf & Hne).
        exists height, h, h'. auto.
      * intros (height & h & h' & [[= <- <-]|Hin] & Hf & Hne).
        -- rewrite Hfind in Hf. discriminate.
        -- exists height, h, h'. auto.
Qed.

(** The merge of the spec reports what the loop reports, from any state
    that agrees with [points] on the heights still to come. *)
Lemma spec_merge_anchors_result (points : OMap.t hash) others :
  OMap.ordered others = true ->
  forall s,
    (forall k, In k (OMap.keys others) ->
               OMap.find (m_points s) k = OMap.find points k) ->
    result (spec_merge_anchors others) s
    = check_for_conflicts_loop points others.
Proof.
  induction others as [|[k v] rest IH]; intros Hord s Hagree;
    [reflexivity|].
  simpl. unfold result, bind, spec_insert_hash_anchor.
  rewrite check_no_conflict_find.
  rewrite (Hagree k) by now left.
  pose proof (OMapFacts.ordered_tail _ _ _ Hord) as Hord'.
  destruct (OMap.find points k) as [h0|] eqn:Hfind.
  - destruct (hash_eqb v h0); [|reflexivity].
    apply (IH Hord'). intros k' Hin. apply Hagree. now right.
  - apply (IH Hord'). intros k' Hin. simpl.
    pose proof (OMapFacts.ordered_head_lt _ _ _ Hord k' Hin) as Hlt.
    rewrite OMapFacts.find_assign_other by lia.
    apply Hagree. now right.
Qed.

(** C7, as the code has it.  [check_for_conflicts other] only checks: it
    inserts nothing and leaves this store as it was.  It fails exactly
    when some hash anchor of the other store stands at a height where
    this store holds a different hash, and succeeds otherwise, which is
    the verdict the merge of the spec would report.  The difficulty
    anchors of either store never take part. *)
Theorem check_for_conflicts_only_checks s other :
  state_after (check_for_conflicts other) s = s
  /\ (result (check_for_conflicts other) s = false <->
      exists height h h',
        In (height, h) (m_points other)
        /\ OMap.find (m_points s) height = Some h' /\ h <> h')
  /\ (OMap.ordered (m_points other) = true ->
      result (check_for_conflicts other) s = result (spec_merge other) s)
  /\ (forall d d' : OMap.t difficulty_type,
        result (check_for_conflicts (mk_checkpoints (m_points other) d))
               (mk_checkpoints (m_points s) d')
        = result (check_for_conflicts other) s).
Proof.
  repeat split.
  - apply check_for_conflicts_loop_false.
  - apply check_for_conflicts_loop_false.
  - intros Hord. unfold spec_merge. symmetry.
    now apply spec_merge_anchors_result.
Qed.

End MergeFacts.

(** ** The loaders *)

Section LoadFacts.
Context {E : Externals}.
Implicit Types (s : checkpoints) (height : N) (h : hash).

(** An anchor, once stored, survives every later call of
    [add_checkpoint], whether the call succeeds or fails. *)
Lemma add_checkpoint_keeps_anchors height hash_str difficulty_str s k h :
  OMap.find (m_points s) k = Some h ->
  OMap.find
    (m_points (state_after (add_checkpoint height hash_str difficulty_str) s))
    k = Some h.
Proof.
  intros Hfind. unfold state_after.
  assert (Hassign : forall h0,
    check_no_conflict hash_eqb (m_points s) height h0 = true ->
    OMap.find (OMap.assign (m_points s) height h0) k = Some h).
  { intros h0 Hc. destruct (N.eq_dec k height) as [->|Hne].
    - rewrite check_no_conflict_find, Hfind in Hc.
      apply hash_eqb_true in Hc. subst h0.
      apply OMapFacts.find_assign_same.
    - now rewrite OMapFacts.find_assign_other. }
  destruct (add_checkpoint_cases height hash_str difficulty_str s);
    simpl; auto.
Qed.

(** [add_checkpoint] touches no other height. *)
Lemma add_checkpoint_other_heights height hash_str difficulty_str s k :
  k <> height ->
  OMap.find
    (m_points (state_after (add_checkpoint height hash_str difficulty_str) s))
    k = OMap.find (m_points s) k.
Proof.
  intros Hne. unfold state_after.
  destruct (add_checkpoint_cases height hash_str difficulty_str s);
    simpl; auto using OMapFacts.find_assign_other.
Qed.

(** Without a difficulty string a failing call changes nothing, and it
    fails on a hash that does not decode or that contradicts the anchor
    in place. *)
Lemma add_checkpoint_no_difficulty_failure height hash_str s s' :
  add_checkpoint height hash_str EmptyString s = (false, s') ->
  s' = s
  /\ (hex_to_pod hash_str = None
      \/ exists h h',
           hex_to_pod hash_str = Some h
           /\ OMap.find (m_points s) height = Some h' /\ h' <> h).
Proof.
  intros Hrun.
  destruct (add_checkpoint_cases height hash_str EmptyString s)
    as [Hhex|h Hhex Hc|h Hhex Hc He|h Hhex Hc He Hd|h d Hhex Hc He Hd Hdc];
    try discriminate.
  - injection Hrun as <-. auto.
  - injection Hrun as <-. split; [reflexivity|]. right.
    rewrite check_no_conflict_find in Hc.
    destruct (OMap.find (m_points s) height) as [h'|]; [|discriminate].
    exists h, h'. repeat split; auto.
    intros ->. now apply hash_eqb_false in Hc.
Qed.

Lemma add_checkpoint_no_difficulty_success height hash_str s s' :
  add_checkpoint height hash_str EmptyString s = (true, s') ->
  exists h,
    hex_to_pod hash_str = Some h
    /\ check_no_conflict hash_eqb (m_points s) height h = true
    /\ s' = mk_checkpoints (OMap.assign (m_points s) height h)
                           (m_difficulty_points s).
Proof.
  intros Hrun.
  destruct (add_checkpoint_cases height hash_str EmptyString s)
    as [Hhex|h Hhex Hc|h Hhex Hc He|h Hhex Hc He Hd|h d Hhex Hc He Hd Hdc];
    try discriminate.
  injection Hrun as <-. eauto.
Qed.

End LoadFacts.

Section LoadLoop.
Context {E : Externals}.
Implicit Types (s : checkpoints) (height : N) (h : hash).

Lemma load_hashlines_skip baseline l rest s :
  hl_height l <= baseline ->
  load_hashlines baseline (l :: rest) s = load_hashlines baseline rest s.
Proof.
  intros Hle. simpl. apply N.leb_le in Hle. now rewrite Hle.
Qed.

Lemma load_hashlines_add baseline l rest s :
  baseline < hl_height l ->
  load_hashlines baseline (l :: rest) s =
  (r <- add_checkpoint (hl_height l) (hl_hash l) EmptyString ;;
   if r then load_hashlines baseline rest else ret false) s.
Proof.
  intros Hlt. simpl. apply N.leb_gt in Hlt. now rewrite Hlt.
Qed.


(** Heights at or below the baseline are left alone, whatever the load
    returns. *)
Lemma load_hashlines_below_baseline baseline lines s k :
  k <= baseline ->
  OMap.find (m_points (state_after (load_hashlines baseline lines) s)) k
  = OMap.find (m_points s) k.
Proof.
  intros Hk. revert s.
  induction lines as [|l rest IH]; intros s; [reflexivity|].
  unfold state_after in *.
  destruct (N.le_gt_cases (hl_height l) baseline) as [Hle|Hgt].
  - rewrite load_hashlines_skip by assumption. apply IH.
  - rewrite load_hashlines_add by assumption. unfold bind.
    pose proof (add_checkpoint_other_heights
                  (hl_height l) (hl_hash l) EmptyString s k) as Hother.
    unfold state_after in Hother.
    destruct (add_checkpoint (hl_height l) (hl_hash l) EmptyString s)
      as [[|] s1]; simpl in *.
    + rewrite IH. apply Hother. lia.
    + apply Hother. lia.
Qed.

(** An anchor in place before the load is in place after it. *)
Lemma load_hashlines_keeps_anchors baseline lines s k h :
  OMap.find (m_points s) k = Some h ->
  OMap.find (m_points (state_after (load_hashlines baseline lines) s)) k
  = Some h.
Proof.
  revert s. induction lines as [|l rest IH]; intros s Hfind; [exact Hfind|].
  unfold state_after in *.
  destruct (N.le_gt_cases (hl_height l) baseline) as [Hle|Hgt].
  - rewrite load_hashlines_skip by assumption. now apply IH.
  - rewrite load_hashlines_add by assumption. unfold bind.
    pose proof (add_checkpoint_keeps_anchors
                  (hl_height l) (hl_hash l) EmptyString s k h Hfind)
      as Hkeep.
    unfold state_after in Hkeep.
    destruct (add_checkpoint (hl_height l) (hl_hash l) EmptyString s)
      as [[|] s1]; simpl in *; auto.
Qed.

(** A load that succeeds has added every record above the baseline. *)
Lemma load_hashlines_success baseline lines s s' :
  load_hashlines baseline lines s = (true, s') ->
  anchors_added baseline lines s s'.
Proof.
  revert s. induction lines as [|l rest IH]; intros s Hrun.
  - injection Hrun as <-. repeat split; auto. now intros l [].
  - destruct (N.le_gt_cases (hl_height l) baseline) as [Hle|Hgt].
    + rewrite load_hashlines_skip in Hrun by assumption.
      destruct (IH s Hrun) as (Hd & Hin & Hout). repeat split; auto.
      * intros l0 [<-|Hl0] Hl; [lia|]. now apply Hin.
      * intros k Hk. apply Hout. intros l0 Hl0. apply Hk. now right.
    + rewrite load_hashlines_add in Hrun by assumption. unfold bind in Hrun.
      destruct (add_checkpoint (hl_height l) (hl_hash l) EmptyString s)
        as [[|] s1] eqn:Hadd; [|discriminate].
      apply add_checkpoint_no_difficulty_success in Hadd.
      destruct Hadd as (h & Hhex & Hc & ->).
      destruct (IH _ Hrun) as (Hd & Hin & Hout). repeat split; auto.
      * intros l0 [<-|Hl0] Hl; [|now apply Hin].
        exists h. split; [exact Hhex|].
        pose proof (load_hashlines_keeps_anchors baseline rest
          (mk_checkpoints (OMap.assign (m_points s) (hl_height l) h)
                          (m_difficulty_points s))
          (hl_height l) h (OMapFacts.find_assign_same _ _ _)) as Hkeep.
        unfold state_after in Hkeep. now rewrite Hrun in Hkeep.
      * intros k Hk. rewrite Hout.
        -- simpl. apply OMapFacts.find_assign_other.
           intros Heq. apply (Hk l); [now left|assumption|now symmetry].
        -- intros l0 Hl0. apply Hk. now right.
Qed.

(** A load that fails stopped at one record above the baseline: the
    records before it went through, that record was rejected, and the
    state is the one the records before it left. *)
Lemma load_hashlines_failure baseline lines s s' :
  load_hashlines baseline lines s = (false, s') ->
  exists pre bad post,
    lines = pre ++ bad :: post
    /\ baseline < hl_height bad
    /\ load_hashlines baseline pre s = (true, s')
    /\ add_checkpoint (hl_height bad) (hl_hash bad) EmptyString s'
       = (false, s').
Proof.
  revert s. induction lines as [|l rest IH]; intros s Hrun; [discriminate|].
  destruct (N.le_gt_cases (hl_height l) baseline) as [Hle|Hgt].
  - rewrite load_hashlines_skip in Hrun by assumption.
    destruct (IH s Hrun) as (pre & bad & post & -> & Hbad & Hpre & Hrej).
    exists (l :: pre), bad, post. repeat split; auto.
    now rewrite load_hashlines_skip.
  - rewrite load_hashlines_add in Hrun by assumption. unfold bind in Hrun.
    destruct (add_checkpoint (hl_height l) (hl_hash l) EmptyString s)
      as [[|] s1] eqn:Hadd.
    + destruct (IH s1 Hrun) as (pre & bad & post & -> & Hbad & Hpre & Hrej).
      exists (l :: pre), bad, post. repeat split; auto.
      rewrite load_hashlines_add by assumption. unfold bind.
      now rewrite Hadd.
    + injection Hrun as <-.
      destruct (add_checkpoint_no_difficulty_failure _ _ _ _ Hadd)
        as [-> _].
      exists [], l, rest. repeat split; auto.
Qed.

(** Every way of filling the store keeps both maps ordered. *)
Lemma load_hashlines_well_formed baseline lines s :
  well_formed s ->
  well_formed (state_after (load_hashlines baseline lines) s).
Proof.
  revert s. induction lines as [|l rest IH]; intros s Hwf; [exact Hwf|].
  unfold state_after in *.
  destruct (N.le_gt_cases (hl_height l) baseline) as [Hle|Hgt].
  - rewrite load_hashlines_skip by assumption. now apply IH.
  - rewrite load_hashlines_add by assumption. unfold bind.
    pose proof (add_checkpoint_well_formed
                  (hl_height l) (hl_hash l) EmptyString s Hwf) as Hstep.
    unfold state_after in Hstep.
    destruct (add_checkpoint (hl_height l) (hl_hash l) EmptyString s)
      as [[|] s1]; simpl in *; auto.
Qed.

Lemma add_default_checkpoints_well_formed table s :
  well_formed s ->
  well_formed (state_after (add_default_checkpoints table) s).
Proof.
  revert s.
  induction table as [|[[height hash_str] difficulty_str] rest IH];
    intros s Hwf; [exact Hwf|].
  unfold state_after in *. simpl. unfold ADD_CHECKPOINT2, bind.
  pose proof (add_checkpoint_well_formed
                height hash_str difficulty_str s Hwf) as Hstep.
  unfold state_after in Hstep.
  destruct (add_checkpoint height hash_str difficulty_str s) as [[|] s1];
    simpl in *; auto.
Qed.

End LoadLoop.

Section LoadTheorems.
Context {E : Externals}.
Implicit Types (s : checkpoints) (height : N) (h : hash).

Lemma load_checkpoints_from_json_missing path s :
  file_exists path = false ->
  load_checkpoints_from_json path s = (true, s).
Proof. intros H. unfold load_checkpoints_from_json. now rewrite H. Qed.

Lemma load_checkpoints_from_json_unparsed path s :
  file_exists path = true ->
  load_t_from_json_file path = None ->
  load_checkpoints_from_json path s = (false, s).
Proof.
  intros H1 H2. unfold load_checkpoints_from_json. rewrite H1.
  unfold_method. now rewrite H2.
Qed.

Lemma load_checkpoints_from_json_parsed path hashes s :
  file_exists path = true ->
  load_t_from_json_file path = Some hashes ->
  load_checkpoints_from_json path s =
  load_hashlines (result get_max_height s) (hashlines hashes) s.
Proof.
  intros H1 H2. unfold load_checkpoints_from_json. rewrite H1.
  unfold_method. now rewrite H2.
Qed.

(** C4, as the code has it.  A load that fails is not undone; it is cut
    short.  When [load_checkpoints_from_json] returns failure, either the
    file did not parse and the store is as before, or the loop stopped at
    one record above the baseline whose hash does not decode or
    contradicts the anchor already at its height: the store then holds
    exactly the anchors of the records processed strictly before that
    record, and neither that record nor a later one is applied. *)
Theorem load_failure_keeps_processed_prefix path s :
  let baseline := result get_max_height s in
  let s' := state_after (load_checkpoints_from_json path) s in
  result (load_checkpoints_from_json path) s = false ->
  file_exists path = true
  /\ ((load_t_from_json_file path = None /\ s' = s)
      \/ exists hashes pre bad post,
           load_t_from_json_file path = Some hashes
           /\ hashlines hashes = pre ++ bad :: post
           /\ baseline < hl_height bad
           /\ load_hashlines baseline pre s = (true, s')
           /\ anchors_added baseline pre s s'
           /\ (hex_to_pod (hl_hash bad) = None
               \/ exists h h',
                    hex_to_pod (hl_hash bad) = Some h
                    /\ OMap.find (m_points s') (hl_height bad) = Some h'
                    /\ h' <> h)).
Proof.
  intros baseline s' Hfail. subst s' baseline.
  change (fst (load_checkpoints_from_json path s) = false) in Hfail.
  change (state_after (load_checkpoints_from_json path) s)
    with (snd (load_checkpoints_from_json path s)).
  destruct (file_exists path) eqn:Hex.
  2:{ rewrite load_checkpoints_from_json_missing in Hfail by assumption.
      discriminate. }
  split; [reflexivity|].
  destruct (load_t_from_json_file path) as [hashes|] eqn:Hparse.
  2:{ left. now rewrite load_checkpoints_from_json_unparsed. }
  right.
  rewrite (load_checkpoints_from_json_parsed path hashes s Hex Hparse)
    in *.
  set (baseline := result get_max_height s) in *.
  destruct (load_hashlines baseline (hashlines hashes) s) as [r s1]
    eqn:Hrun.
  simpl in Hfail |- *. subst r.
  destruct (load_hashlines_failure _ _ _ _ Hrun)
    as (pre & bad & post & Hsplit & Hbad & Hpre & Hrej).
  exists hashes, pre, bad, post. repeat split; auto.
  - now apply (load_hashlines_success baseline pre s s1).
  - now apply (load_hashlines_success baseline pre s s1).
  - now apply (load_hashlines_success baseline pre s s1).
  - now destruct (add_checkpoint_no_difficulty_failure _ _ _ _ Hrej).
Qed.


(** C6.  [load_checkpoints_from_dns] returns failure for every network
    and every store and leaves the store as it was.
    [load_new_checkpoints] always runs [load_checkpoints_from_json]; with
    the dns flag set it returns failure, with the flag clear it returns
    exactly what [load_checkpoints_from_json] returned, and either way
    the store is the one [load_checkpoints_from_json] left. *)
Theorem dns_loader_disabled path (nettype : network_type) s :
  load_checkpoints_from_dns nettype s = (false, s)
  /\ load_new_checkpoints path nettype true s
     = (false, state_after (load_checkpoints_from_json path) s)
  /\ load_new_checkpoints path nettype false s
     = load_checkpoints_from_json path s.
Proof.
  unfold load_new_checkpoints, load_checkpoints_from_dns.
  unfold_method. repeat split.
  - destruct (load_checkpoints_from_json path s) as [r s1]. simpl.
    now rewrite andb_false_r.
  - now destruct (load_checkpoints_from_json path s).
Qed.

(** C5, as the code has it.  [add_checkpoint] can fail after it has
    written.  When the hash string decodes to [h], no other hash is
    anchored at [height], and the difficulty string is non-empty and
    either does not decode or decodes to a difficulty other than the one
    anchored at [height], the call returns failure and yet [height] now
    carries the hash anchor [h]; the difficulty map is untouched, and
    when [height] carried no hash anchor before, the store has
    changed. *)
Theorem add_checkpoint_fails_after_storing_hash
    height hash_str difficulty_str s h :
  hex_to_pod hash_str = Some h ->
  (forall h', OMap.find (m_points s) height = Some h' -> h' = h) ->
  difficulty_str <> EmptyString ->
  (difficulty_of_string difficulty_str = None
   \/ exists d d',
        difficulty_of_string difficulty_str = Some d
        /\ OMap.find (m_difficulty_points s) height = Some d' /\ d' <> d) ->
  let s' := state_after (add_checkpoint height hash_str difficulty_str) s in
  result (add_checkpoint height hash_str difficulty_str) s = false
  /\ OMap.find (m_points s') height = Some h
  /\ m_difficulty_points s' = m_difficulty_points s
  /\ (OMap.find (m_points s) height = None -> s' <> s).
Proof.
  intros Hhex Hsame Hne Hdiff s'. subst s'.
  assert (Hc : check_no_conflict hash_eqb (m_points s) height h = true).
  { rewrite check_no_conflict_find.
    destruct (OMap.find (m_points s) height) as [h'|]; [|reflexivity].
    rewrite (Hsame h' eq_refl). apply hash_eqb_refl. }
  assert (He : string_empty difficulty_str = false)
    by (destruct difficulty_str; [contradiction|reflexivity]).
  assert (Hrun : add_checkpoint height hash_str difficulty_str s =
                 (false, mk_checkpoints (OMap.assign (m_points s) height h)
                                        (m_difficulty_points s))).
  { destruct Hdiff as [Hd|(d & d' & Hd & Hfind & Hdd)].
    - now apply add_checkpoint_bad_difficulty.
    - apply (add_checkpoint_difficulty_conflict _ _ _ _ h d); auto.
      rewrite check_no_conflict_find.
      match goal with
      | |- match ?x with _ => _ end = _ =>
          replace x with (Some d') by (symmetry; exact Hfind)
      end.
      apply N.eqb_neq. congruence. }
  unfold result, state_after. rewrite Hrun. simpl. repeat split.
  - apply OMapFacts.find_assign_same.
  - intros Hnone Heq. rewrite <- Heq in Hnone. simpl in Hnone.
    rewrite OMapFacts.find_assign_same in Hnone. discriminate.
Qed.

End LoadTheorems.

(** ** Further properties of the insert *)

Section InsertMore.
Context {E : Externals}.
Implicit Types (s : checkpoints) (height : N) (h : hash).

Lemma no_hash_conflict_iff (m : OMap.t hash) height h :
  check_no_conflict hash_eqb m height h = true <->
  forall h', OMap.find m height = Some h' -> h' = h.
Proof.
  rewrite check_no_conflict_find.
  destruct (OMap.find m height) as [h0|].
  - split.
    + intros Heq h' [= <-]. symmetry. now apply hash_eqb_true.
    + intros H. rewrite (H h0 eq_refl). apply hash_eqb_refl.
  - split; [discriminate|reflexivity].
Qed.

Lemma no_difficulty_conflict_iff (m : OMap.t difficulty_type) height
    (d : difficulty_type) :
  check_no_conflict N.eqb m height d = true <->
  forall d', OMap.find m height = Some d' -> d' = d.
Proof.
  rewrite check_no_conflict_find. unfold difficulty_type in *.
  destruct (OMap.find m height) as [d0|].
  - split.
    + intros Heq d' [= <-]. apply N.eqb_eq in Heq. now symmetry.
    + intros H. rewrite (H d0 eq_refl). apply N.eqb_refl.
  - split; [discriminate|reflexivity].
Qed.

Lemma string_empty_true str : string_empty str = true <-> str = EmptyString.
Proof. destruct str; simpl; split; congruence. Qed.

(** X1.  [add_checkpoint] returns success exactly when the hash string
    decodes, no other hash is anchored at the height, and the difficulty
    string is empty or decodes to a difficulty that no other difficulty
    anchored at the height contradicts. *)
Theorem add_checkpoint_succeeds_iff height hash_str difficulty_str s :
  result (add_checkpoint height hash_str difficulty_str) s = true <->
  exists h,
    hex_to_pod hash_str = Some h
    /\ (forall h', OMap.find (m_points s) height = Some h' -> h' = h)
    /\ (difficulty_str = EmptyString
        \/ exists d,
             difficulty_of_string difficulty_str = Some d
             /\ forall d',
                  OMap.find (m_difficulty_points s) height = Some d' ->
                  d' = d).
Proof.
  unfold result. split.
  - destruct (add_checkpoint_cases height hash_str difficulty_str s)
      as [Hhex|h Hhex Hc|h Hhex Hc He|h Hhex Hc He Hd|h d Hhex Hc He Hd Hdc];
      simpl; try discriminate; intros _; exists h.
    + split; [exact Hhex|]. split; [now apply no_hash_conflict_iff|].
      left. now apply string_empty_true.
    + split; [exact Hhex|]. split; [now apply no_hash_conflict_iff|].
      right. exists d. split; [exact Hd|].
      exact (proj1 (no_difficulty_conflict_iff _ _ _) Hdc).
  - intros (h & Hhex & Hh & Hd).
    apply no_hash_conflict_iff in Hh.
    destruct (string_empty difficulty_str) eqn:He.
    + apply string_empty_true in He. subst difficulty_str.
      now rewrite (add_checkpoint_no_difficulty _ _ _ h Hhex Hh).
    + destruct Hd as [->|(d & Hd & Hdd)]; [discriminate|].
      pose proof (proj2 (no_difficulty_conflict_iff _ _ _) Hdd) as Hdc.
      now rewrite (add_checkpoint_with_difficulty _ _ _ _ h d Hhex Hh He Hd
                     Hdc).
Qed.

Lemma add_checkpoint_keeps_difficulties
    height hash_str difficulty_str s k (d : difficulty_type) :
  OMap.find (m_difficulty_points s) k = Some d ->
  OMap.find
    (m_difficulty_points
       (state_after (add_checkpoint height hash_str difficulty_str) s))
    k = Some d.
Proof.
  intros Hfind. unfold state_after.
  destruct (add_checkpoint_cases height hash_str difficulty_str s)
    as [Hhex|h Hhex Hc|h Hhex Hc He|h Hhex Hc He Hd|h d0 Hhex Hc He Hd Hdc];
    simpl; auto.
  destruct (N.eq_dec k height) as [->|Hne].
  - pose proof (proj1 (no_difficulty_conflict_iff _ _ _) Hdc) as Hsame.
    rewrite (Hsame d Hfind). apply OMapFacts.find_assign_same.
  - now rewrite OMapFacts.find_assign_other.
Qed.

Lemma add_checkpoint_other_difficulties
    height hash_str difficulty_str s k :
  k <> height ->
  OMap.find
    (m_difficulty_points
       (state_after (add_checkpoint height hash_str difficulty_str) s))
    k = OMap.find (m_difficulty_points s) k.
Proof.
  intros Hne. unfold state_after.
  destruct (add_checkpoint_cases height hash_str difficulty_str s);
    simpl; auto using OMapFacts.find_assign_other.
Qed.

Lemma add_checkpoint_extends height hash_str difficulty_str s :
  extends s (state_after (add_checkpoint height hash_str difficulty_str) s).
Proof.
  split.
  - intros k h. apply add_checkpoint_keeps_anchors.
  - intros k d. apply add_checkpoint_keeps_difficulties.
Qed.

(** X2.  [add_checkpoint] is append-only: a hash anchor or a difficulty
    anchor that is in the store before the call is in the store after it
    with the same value, whether the call succeeds or fails. *)
Theorem add_checkpoint_append_only height hash_str difficulty_str s :
  let s' := state_after (add_checkpoint height hash_str difficulty_str) s in
  (forall k h, OMap.find (m_points s) k = Some h ->
               OMap.find (m_points s') k = Some h)
  /\ (forall k (d : difficulty_type),
        OMap.find (m_difficulty_points s) k = Some d ->
        OMap.find (m_difficulty_points s') k = Some d).
Proof.
  intros s'. subst s'. split.
  - intros k h Hfind. now apply add_checkpoint_keeps_anchors.
  - intros k d Hfind. now apply add_checkpoint_keeps_difficulties.
Qed.

(** X3.  [add_checkpoint] touches one height only: at every other height
    the hash anchor and the difficulty anchor, present or absent, are as
    before the call. *)
Theorem add_checkpoint_frame height hash_str difficulty_str s k :
  k <> height ->
  let s' := state_after (add_checkpoint height hash_str difficulty_str) s in
  OMap.find (m_points s') k = OMap.find (m_points s) k
  /\ OMap.find (m_difficulty_points s') k
     = OMap.find (m_difficulty_points s) k.
Proof.
  intros Hne s'. split.
  - now apply add_checkpoint_other_heights.
  - now apply add_checkpoint_other_difficulties.
Qed.

(** X5.  What a failing [add_checkpoint] leaves behind: the difficulty map
    is never touched; without a difficulty string the store is exactly as
    before; and when the store did change, the hash string decodes, a
    difficulty string was given, the height carried no hash anchor before
    and carries the decoded hash now. *)
Theorem add_checkpoint_failure_effect height hash_str difficulty_str s :
  let s' := state_after (add_checkpoint height hash_str difficulty_str) s in
  result (add_checkpoint height hash_str difficulty_str) s = false ->
  m_difficulty_points s' = m_difficulty_points s
  /\ (difficulty_str = EmptyString -> s' = s)
  /\ (s' <> s ->
      difficulty_str <> EmptyString
      /\ OMap.find (m_points s) height = None
      /\ exists h, hex_to_pod hash_str = Some h
                   /\ OMap.find (m_points s') height = Some h).
Proof.
  intros s'. subst s'. unfold result, state_after.
  destruct (add_checkpoint_cases height hash_str difficulty_str s)
    as [Hhex|h Hhex Hc|h Hhex Hc He|h Hhex Hc He Hd|h d Hhex Hc He Hd Hdc];
    simpl; try discriminate; intros _.
  - split; [reflexivity|]. split; [reflexivity|].
    intros Hchanged. now contradiction Hchanged.
  - split; [reflexivity|]. split; [reflexivity|].
    intros Hchanged. now contradiction Hchanged.
  - split; [reflexivity|]. split.
    + intros ->. discriminate.
    + intros Hchanged. split; [intros ->; discriminate|].
      rewrite check_no_conflict_find in Hc.
      destruct (OMap.find (m_points s) height) as [h'|] eqn:Hfind.
      * exfalso. apply Hchanged. apply hash_eqb_true in Hc. subst h'.
        rewrite OMapFacts.assign_same_value by assumption. now destruct s.
      * split; [reflexivity|]. exists h. split; [exact Hhex|].
        apply OMapFacts.find_assign_same.
Qed.

Lemma add_checkpoint_keeps_difficulty_within_points
    height hash_str difficulty_str s :
  difficulty_within_points new_checkpoints
  /\ (difficulty_within_points s ->
      difficulty_within_points
        (state_after (add_checkpoint height hash_str difficulty_str) s)).
Proof.
  split; [intros k d; discriminate|].
  intros Hinv k d. unfold state_after.
  destruct (add_checkpoint_cases height hash_str difficulty_str s)
    as [Hhex|h Hhex Hc|h Hhex Hc He|h Hhex Hc He Hd|h d0 Hhex Hc He Hd Hdc];
    simpl; try apply Hinv.
  - intros Hfind. destruct (Hinv k d Hfind) as [h0 Hh0].
    destruct (N.eq_dec k height) as [->|Hne].
    + exists h. apply OMapFacts.find_assign_same.
    + exists h0. now rewrite OMapFacts.find_assign_other.
  - intros Hfind. destruct (Hinv k d Hfind) as [h0 Hh0].
    destruct (N.eq_dec k height) as [->|Hne].
    + exists h. apply OMapFacts.find_assign_same.
    + exists h0. now rewrite OMapFacts.find_assign_other.
  - destruct (N.eq_dec k height) as [->|Hne].
    + intros _. exists h. apply OMapFacts.find_assign_same.
    + rewrite !OMapFacts.find_assign_other by assumption. apply Hinv.
Qed.

End InsertMore.

(** ** Further properties of the queries *)

Section QueryMore.
Context {E : Externals}.
Implicit Types (s : checkpoints) (height : N) (h : hash).

Lemma get_max_height_greatest s :
  well_formed s -> m_points s <> [] ->
  greatest_anchor s (result get_max_height s).
Proof.
  intros [Hord _] Hne. unfold greatest_anchor, anchored_heights.
  unfold get_max_height. unfold_method.
  destruct (m_points s) as [|e rest] eqn:Hp; [contradiction|].
  simpl OMap.empty. cbv iota. now apply OMapFacts.key_at_last.
Qed.

Lemma is_in_checkpoint_zone_unfold height s :
  m_points s <> [] ->
  result (is_in_checkpoint_zone height) s
  = (height <=? result get_max_height s).
Proof.
  intros Hne. unfold is_in_checkpoint_zone, get_max_height. unfold_method.
  destruct (m_points s) as [|e rest]; [contradiction|]. reflexivity.
Qed.

Lemma anchored_not_empty s k :
  In k (anchored_heights s) -> m_points s <> [].
Proof.
  unfold anchored_heights. intros Hin Hnil. rewrite Hnil in Hin.
  destruct Hin.
Qed.

Lemma anchored_below_max s k :
  well_formed s -> In k (anchored_heights s) ->
  k <= result get_max_height s
  /\ result (is_in_checkpoint_zone k) s = true.
Proof.
  intros Hwf Hin.
  pose proof (anchored_not_empty s k Hin) as Hne.
  destruct (get_max_height_greatest s Hwf Hne) as [_ Hmax].
  split; [now apply Hmax|].
  rewrite is_in_checkpoint_zone_unfold by assumption.
  apply N.leb_le. now apply Hmax.
Qed.

Lemma check_block_at height h h0 s :
  OMap.find (m_points s) height = Some h0 ->
  check_block height h s = ((hash_eqb h0 h, true), s).
Proof.
  intros Hfind. unfold check_block. unfold_method. rewrite Hfind.
  now destruct (hash_eqb h0 h).
Qed.

(** X4.  Insert and look up: after [add_checkpoint] has returned success
    for a hash string that decodes to [h], [check_block] at that height
    accepts [h] and rejects every other hash, both as anchored; and in a
    store ordered by height the height then lies in the checkpoint zone,
    at or below [get_max_height]. *)
Theorem add_checkpoint_then_check_block height hash_str difficulty_str s :
  result (add_checkpoint height hash_str difficulty_str) s = true ->
  let s' := state_after (add_checkpoint height hash_str difficulty_str) s in
  exists h,
    hex_to_pod hash_str = Some h
    /\ check_block height h s' = ((true, true), s')
    /\ (forall h', h' <> h -> check_block height h' s' = ((false, true), s'))
    /\ (well_formed s ->
        result (is_in_checkpoint_zone height) s' = true
        /\ height <= result get_max_height s').
Proof.
  intros Hok s'.
  assert (Hstored : exists h, hex_to_pod hash_str = Some h
                    /\ OMap.find (m_points s') height = Some h).
  { subst s'. unfold result, state_after in *.
    destruct (add_checkpoint_cases height hash_str difficulty_str s)
      as [Hhex|h Hhex Hc|h Hhex Hc He|h Hhex Hc He Hd|h d Hhex Hc He Hd Hdc];
      simpl in *; try discriminate; exists h;
      (split; [exact Hhex|apply OMapFacts.find_assign_same]). }
  destruct Hstored as (h & Hhex & Hfind). exists h.
  split; [exact Hhex|]. split; [|split].
  - rewrite (check_block_at height h h s' Hfind). now rewrite hash_eqb_refl.
  - intros h' Hne. rewrite (check_block_at height h' h s' Hfind).
    rewrite hash_eqb_neq; [reflexivity|congruence].
  - intros Hwf.
    assert (Hwf' : well_formed s')
      by now apply add_checkpoint_well_formed.
    apply OMapFacts.find_Some_key in Hfind.
    destruct (anchored_below_max s' height Hwf' Hfind). auto.
Qed.

(** X8.  Every anchored height lies in the checkpoint zone: in a store
    ordered by height, when [check_block] reports a height as anchored,
    [is_in_checkpoint_zone] holds there and the height is at or below
    [get_max_height]. *)
Theorem anchored_height_in_checkpoint_zone height h s :
  well_formed s ->
  snd (result (check_block height h) s) = true ->
  result (is_in_checkpoint_zone height) s = true
  /\ height <= result get_max_height s.
Proof.
  intros Hwf Hanch.
  destruct (OMap.find (m_points s) height) as [h0|] eqn:Hfind.
  - apply OMapFacts.find_Some_key in Hfind.
    destruct (anchored_below_max s height Hwf Hfind). auto.
  - unfold check_block in Hanch. unfold_method. simpl in Hanch.
    unfold result, bind, gets in Hanch. simpl in Hanch.
    rewrite Hfind in Hanch. discriminate.
Qed.

(** X19.  [check_block], the two-argument overload, returns [false] exactly
    when the height carries a hash anchor other than the hash given, and
    leaves the store as it was. *)
Theorem check_block_ignored_rejects_iff height h s :
  (result (check_block_ignored height h) s = false <->
   exists h', OMap.find (m_points s) height = Some h' /\ h' <> h)
  /\ state_after (check_block_ignored height h) s = s.
Proof.
  unfold check_block_ignored, check_block. unfold_method.
  destruct (OMap.find (m_points s) height) as [h0|] eqn:Hfind; simpl.
  - destruct (hash_eqb h0 h) eqn:Heq; simpl; split; try reflexivity.
    + split; [discriminate|]. intros (h' & [= <-] & Hne).
      apply hash_eqb_true in Heq. contradiction.
    + split; [|reflexivity]. intros _. exists h0. split; [reflexivity|].
      now apply hash_eqb_false.
  - split; [|reflexivity]. split; [discriminate|].
    intros (h' & Hh & _). discriminate.
Qed.

Lemma add_checkpoint_keeps_heights height hash_str difficulty_str s k :
  In k (anchored_heights s) ->
  In k (anchored_heights
          (state_after (add_checkpoint height hash_str difficulty_str) s)).
Proof.
  unfold anchored_heights, state_after.
  destruct (add_checkpoint_cases height hash_str difficulty_str s);
    simpl; auto; intros Hin; apply OMapFacts.keys_assign; now right.
Qed.

Lemma add_checkpoint_max_height_grows height hash_str difficulty_str s :
  well_formed s ->
  result get_max_height s
  <= result get_max_height
       (state_after (add_checkpoint height hash_str difficulty_str) s).
Proof.
  intros Hwf.
  destruct (m_points s) as [|e rest] eqn:Hp.
  - unfold get_max_height at 1. unfold_method. rewrite Hp. simpl. lia.
  - assert (Hne : m_points s <> []) by (rewrite Hp; discriminate).
    destruct (get_max_height_greatest s Hwf Hne) as [Hin _].
    apply anchored_below_max.
    + now apply add_checkpoint_well_formed.
    + now apply add_checkpoint_keeps_heights.
Qed.

(** X7.  The checkpoint zone only grows under [add_checkpoint]: in a store
    ordered by height, [get_max_height] never decreases across a call,
    a height that was in the zone stays in it, and after a call that
    returned success [get_max_height] is the greater of its former value
    and the height just inserted. *)
Theorem add_checkpoint_zone_grows height hash_str difficulty_str s :
  well_formed s ->
  let s' := state_after (add_checkpoint height hash_str difficulty_str) s in
  result get_max_height s <= result get_max_height s'
  /\ (forall k, result (is_in_checkpoint_zone k) s = true ->
                result (is_in_checkpoint_zone k) s' = true)
  /\ (result (add_checkpoint height hash_str difficulty_str) s = true ->
      result get_max_height s' = N.max (result get_max_height s) height).
Proof.
  intros Hwf s'.
  pose proof (add_checkpoint_max_height_grows
                height hash_str difficulty_str s Hwf) as Hgrow.
  fold s' in Hgrow.
  assert (Hwf' : well_formed s') by now apply add_checkpoint_well_formed.
  split; [exact Hgrow|]. split.
  - intros k Hzone.
    destruct (m_points s) as [|e rest] eqn:Hp.
    + unfold is_in_checkpoint_zone in Hzone. unfold_method.
      unfold result, gets in Hzone. simpl in Hzone. rewrite Hp in Hzone.
      discriminate.
    + assert (Hne : m_points s <> []) by (rewrite Hp; discriminate).
      rewrite is_in_checkpoint_zone_unfold in Hzone by assumption.
      apply N.leb_le in Hzone.
      destruct (get_max_height_greatest s Hwf Hne) as [Hin _].
      pose proof (add_checkpoint_keeps_heights
                    height hash_str difficulty_str s _ Hin) as Hin'.
      fold s' in Hin'.
      rewrite is_in_checkpoint_zone_unfold
        by (eapply anchored_not_empty; eassumption).
      apply N.leb_le. lia.
  - intros Hok.
    assert (Hpoints : exists h,
               m_points s' = OMap.assign (m_points s) height h).
    { subst s'. unfold result, state_after in *.
      destruct (add_checkpoint_cases height hash_str difficulty_str s)
        as [Hhex|h Hhex Hc|h Hhex Hc He|h Hhex Hc He Hd|h d Hhex Hc He Hd Hdc];
        simpl in *; try discriminate; now exists h. }
    destruct Hpoints as [h Hpoints].
    assert (Hne' : m_points s' <> [])
      by (rewrite Hpoints; apply OMapFacts.assign_not_nil).
    destruct (get_max_height_greatest s' Hwf' Hne') as [Hin' Hmax'].
    unfold anchored_heights in Hin', Hmax'. rewrite Hpoints in Hin', Hmax'.
    apply OMapFacts.keys_assign in Hin'.
    assert (Hheight : height <= result get_max_height s')
      by (apply Hmax'; apply OMapFacts.keys_assign; now left).
    destruct Hin' as [Heq|Hin].
    + lia.
    + assert (Hne : m_points s <> [])
        by (apply (anchored_not_empty s (result get_max_height s')), Hin).
      destruct (get_max_height_greatest s Hwf Hne) as [_ Hmax].
      specialize (Hmax _ Hin). lia.
Qed.

End QueryMore.

(** ** Further properties of the fork policy and of the conflict check *)

Section PolicyMore.
Context {E : Externals}.
Implicit Types (s other : checkpoints) (height : N) (h : hash).

(** The policy in one sentence: a fork is admitted when its height is not 0
    and lies strictly above every anchor the chain has reached. *)
Lemma is_alternative_block_allowed_iff blockchain_height block_height s :
  well_formed s ->
  (result (is_alternative_block_allowed blockchain_height block_height) s
   = true
   <-> block_height <> 0
       /\ forall k, In k (anchored_heights s) -> k <= blockchain_height ->
                    k < block_height).
Proof.
  intros [Hord _]. unfold is_alternative_block_allowed, anchored_heights.
  destruct (0 =? block_height) eqn:H0.
  - apply N.eqb_eq in H0. split; [discriminate|]. intros [Hnz _]. lia.
  - apply N.eqb_neq in H0. unfold_method.
    destruct (OMap.upper_bound (m_points s) blockchain_height) as [|n]
      eqn:Hub; simpl.
    + split; [|reflexivity]. intros _. split; [lia|].
      intros k Hin Hle.
      pose proof (OMapFacts.upper_bound_begin (m_points s)
                    blockchain_height Hord Hub k Hin). lia.
    + pose proof (OMapFacts.key_at_upper_bound (m_points s)
                    blockchain_height n Hord Hub) as Hg.
      rewrite Hub in Hg. simpl in Hg. destruct Hg as (Hin & Hle & Hmax).
      rewrite N.ltb_lt. split.
      * intros Hlt. split; [lia|]. intros k Hk Hkle.
        specialize (Hmax k Hk Hkle). lia.
      * intros [_ Hall]. now apply Hall.
Qed.

(** X9.  In a store ordered by height a fork is admitted exactly when its
    height is not 0 and is strictly above every anchored height at or below
    the chain height.  So a fork at or below an anchor that the chain has
    reached is refused, and a fork whose non-zero height is above
    [get_max_height] is admitted at every chain height. *)
Theorem fork_allowed_above_reached_anchors chain_height fork_height s :
  well_formed s ->
  let allowed :=
    result (is_alternative_block_allowed chain_height fork_height) s in
  (allowed = true
   <-> fork_height <> 0
       /\ forall k, In k (anchored_heights s) -> k <= chain_height ->
                    k < fork_height)
  /\ (forall k, In k (anchored_heights s) -> k <= chain_height ->
                fork_height <= k -> allowed = false)
  /\ (fork_height <> 0 -> result get_max_height s < fork_height ->
      allowed = true).
Proof.
  intros Hwf allowed. subst allowed.
  pose proof (is_alternative_block_allowed_iff chain_height fork_height s Hwf)
    as Hiff.
  split; [exact Hiff|]. split.
  - intros k Hin Hle Hfork.
    destruct (result (is_alternative_block_allowed chain_height fork_height)
                s) eqn:Hres; [|reflexivity].
    destruct (proj1 Hiff eq_refl) as [_ Hall].
    specialize (Hall k Hin Hle). lia.
  - intros Hnz Habove. apply Hiff. split; [exact Hnz|].
    intros k Hin _.
    destruct (anchored_below_max s k Hwf Hin) as [Hle _]. lia.
Qed.

(** X10.  The policy is monotone: in a store ordered by height, a fork
    admitted at some chain height is admitted at every lower chain height
    and for every higher fork height. *)
Theorem fork_allowed_monotone chain_height fork_height chain' fork' s :
  well_formed s ->
  chain' <= chain_height ->
  fork_height <= fork' ->
  result (is_alternative_block_allowed chain_height fork_height) s = true ->
  result (is_alternative_block_allowed chain' fork') s = true.
Proof.
  intros Hwf Hchain Hfork Hok.
  apply (is_alternative_block_allowed_iff _ _ s Hwf) in Hok.
  destruct Hok as [Hnz Hall].
  apply (is_alternative_block_allowed_iff _ _ s Hwf). split; [lia|].
  intros k Hin Hle. assert (k < fork_height) by (apply Hall; [assumption|lia]).
  lia.
Qed.

(** X11.  Once the chain has reached the last checkpoint, the policy and
    the checkpoint zone are complements: in a non-empty store ordered by
    height, at a chain height at or above [get_max_height], a fork is
    admitted exactly when its height is outside the checkpoint zone. *)
Theorem fork_allowed_outside_zone chain_height fork_height s :
  well_formed s ->
  m_points s <> [] ->
  result get_max_height s <= chain_height ->
  result (is_alternative_block_allowed chain_height fork_height) s
  = negb (result (is_in_checkpoint_zone fork_height) s).
Proof.
  intros Hwf Hne Hpast.
  rewrite is_in_checkpoint_zone_unfold by assumption.
  destruct (get_max_height_greatest s Hwf Hne) as [Hin Hmax].
  pose proof (is_alternative_block_allowed_iff chain_height fork_height s Hwf)
    as Hiff.
  destruct (fork_height <=? result get_max_height s) eqn:Hzone; simpl.
  - apply N.leb_le in Hzone.
    destruct (result (is_alternative_block_allowed chain_height fork_height)
                s) eqn:Hres; [|reflexivity].
    destruct (proj1 Hiff eq_refl) as [_ Hall].
    specialize (Hall _ Hin Hpast). lia.
  - apply N.leb_gt in Hzone. apply Hiff. split; [lia|].
    intros k Hk _. specialize (Hmax k Hk). lia.
Qed.

Lemma check_for_conflicts_loop_true (points : OMap.t hash) others :
  check_for_conflicts_loop points others = true <->
  forall height h, In (height, h) others ->
                   check_no_conflict hash_eqb points height h = true.
Proof.
  induction others as [|[k v] rest IH]; simpl.
  - split; [intros _ ? ? []|reflexivity].
  - destruct (check_no_conflict hash_eqb points k v) eqn:Hc.
    + rewrite IH. split.
      * intros Hall height h [[= <- <-]|Hin]; auto.
      * intros Hall height h Hin. apply Hall. now right.
    + split; [discriminate|]. intros Hall.
      rewrite <- Hc. apply Hall. now left.
Qed.

Lemma check_for_conflicts_result other s :
  result (check_for_conflicts other) s
  = check_for_conflicts_loop (m_points s) (m_points other).
Proof. reflexivity. Qed.

(** The verdict on two ordered stores, stated on their lookups. *)
Lemma check_for_conflicts_false_iff other s :
  OMap.ordered (m_points other) = true ->
  (result (check_for_conflicts other) s = false <->
   exists height h h',
     OMap.find (m_points other) height = Some h
     /\ OMap.find (m_points s) height = Some h' /\ h <> h').
Proof.
  intros Hord. rewrite check_for_conflicts_result.
  rewrite check_for_conflicts_loop_false. split.
  - intros (height & h & h' & Hin & Hf & Hne).
    exists height, h, h'. split; [|auto].
    now apply OMapFacts.In_find_Some.
  - intros (height & h & h' & Hfo & Hf & Hne).
    exists height, h, h'. split; [|auto].
    now apply OMapFacts.find_Some_In.
Qed.

(** X12.  The conflict check does not depend on which store asks: for two
    stores ordered by height, [a.check_for_conflicts(b)] and
    [b.check_for_conflicts(a)] return the same verdict, and a store never
    conflicts with itself. *)
Theorem check_for_conflicts_symmetric s other :
  well_formed s ->
  well_formed other ->
  result (check_for_conflicts other) s = result (check_for_conflicts s) other
  /\ result (check_for_conflicts s) s = true.
Proof.
  intros [Hs _] [Ho _].
  assert (Hswap : forall a b,
    OMap.ordered (m_points a) = true -> OMap.ordered (m_points b) = true ->
    result (check_for_conflicts a) b = false ->
    result (check_for_conflicts b) a = false).
  { intros a b Ha Hb Hf.
    apply (check_for_conflicts_false_iff a b Ha) in Hf.
    destruct Hf as (height & h & h' & H1 & H2 & Hne).
    apply (check_for_conflicts_false_iff b a Hb).
    exists height, h', h. auto. }
  split.
  - destruct (result (check_for_conflicts other) s) eqn:H1;
      destruct (result (check_for_conflicts s) other) eqn:H2; auto.
    + apply (Hswap s other Hs Ho) in H2. congruence.
    + apply (Hswap other s Ho Hs) in H1. congruence.
  - destruct (result (check_for_conflicts s) s) eqn:Hself; [reflexivity|].
    apply (check_for_conflicts_false_iff s s Hs) in Hself.
    destruct Hself as (height & h & h' & H1 & H2 & Hne). congruence.
Qed.

(** X13.  The conflict check predicts the insert: when
    [check_for_conflicts other] succeeds, every hash anchor of [other] can
    be added to this store ([add_checkpoint] with a hash string that
    decodes to it and no difficulty returns success); when it fails, some
    hash anchor of [other] cannot. *)
Theorem check_for_conflicts_predicts_insert other s :
  (result (check_for_conflicts other) s = true ->
   forall height h hash_str,
     In (height, h) (m_points other) ->
     hex_to_pod hash_str = Some h ->
     result (add_checkpoint height hash_str EmptyString) s = true)
  /\ (result (check_for_conflicts other) s = false ->
      exists height h,
        In (height, h) (m_points other)
        /\ forall hash_str,
             hex_to_pod hash_str = Some h ->
             result (add_checkpoint height hash_str EmptyString) s = false).
Proof.
  rewrite check_for_conflicts_result. split.
  - intros Hok height h hash_str Hin Hhex.
    pose proof (proj1 (check_for_conflicts_loop_true _ _) Hok height h Hin)
      as Hc.
    unfold result.
    now rewrite (add_checkpoint_no_difficulty height hash_str s h Hhex Hc).
  - intros Hfail. apply check_for_conflicts_loop_false in Hfail.
    destruct Hfail as (height & h & h' & Hin & Hf & Hne).
    exists height, h. split; [exact Hin|].
    intros hash_str Hhex. unfold result.
    rewrite (add_checkpoint_hash_conflict height hash_str _ s h Hhex);
      [reflexivity|].
    rewrite check_no_conflict_find, Hf. now apply hash_eqb_neq.
Qed.

End PolicyMore.

(** ** Further properties of the file loader *)

Section LoadMore.
Context {E : Externals}.
Implicit Types (s : checkpoints) (height : N) (h : hash).

Lemma add_checkpoint_no_difficulty_map height hash_str s :
  m_difficulty_points
    (state_after (add_checkpoint height hash_str EmptyString) s)
  = m_difficulty_points s.
Proof.
  unfold state_after.
  destruct (add_checkpoint_cases height hash_str EmptyString s);
    simpl; auto; discriminate.
Qed.

Lemma load_hashlines_difficulty_map baseline lines s :
  m_difficulty_points (state_after (load_hashlines baseline lines) s)
  = m_difficulty_points s.
Proof.
  revert s. induction lines as [|l rest IH]; intros s; [reflexivity|].
  unfold state_after in *.
  destruct (N.le_gt_cases (hl_height l) baseline) as [Hle|Hgt].
  - rewrite load_hashlines_skip by assumption. apply IH.
  - rewrite load_hashlines_add by assumption. unfold bind.
    pose proof (add_checkpoint_no_difficulty_map
                  (hl_height l) (hl_hash l) s) as Hstep.
    unfold state_after in Hstep.
    destruct (add_checkpoint (hl_height l) (hl_hash l) EmptyString s)
      as [[|] s1]; simpl in *; [now rewrite IH|exact Hstep].
Qed.

(** The state the loader leaves is the state its loop leaves, or the state
    it found. *)
Lemma load_checkpoints_from_json_state path s :
  state_after (load_checkpoints_from_json path) s = s
  \/ exists hashes,
       state_after (load_checkpoints_from_json path) s
       = state_after
           (load_hashlines (result get_max_height s) (hashlines hashes)) s.
Proof.
  unfold state_after.
  destruct (file_exists path) eqn:Hex.
  - destruct (load_t_from_json_file path) as [hashes|] eqn:Hparse.
    + right. exists hashes.
      now rewrite (load_checkpoints_from_json_parsed path hashes s).
    + left. now rewrite load_checkpoints_from_json_unparsed.
  - left. now rewrite load_checkpoints_from_json_missing.
Qed.

(** X14.  The file loader only adds hash anchors above the baseline.
    Whatever [load_checkpoints_from_json] returns: the difficulty map is as
    before; every hash anchor in place before the call is in place after
    it; every height at or below the [get_max_height] of the store before
    the call is as before, anchored or not; and both maps stay ordered.
    [load_new_checkpoints] leaves the same state. *)
Theorem load_checkpoints_from_json_only_adds path s :
  let s' := state_after (load_checkpoints_from_json path) s in
  m_difficulty_points s' = m_difficulty_points s
  /\ (forall k h, OMap.find (m_points s) k = Some h ->
                  OMap.find (m_points s') k = Some h)
  /\ (forall k, k <= result get_max_height s ->
                OMap.find (m_points s') k = OMap.find (m_points s) k)
  /\ (well_formed s -> well_formed s')
  /\ (forall nettype dns,
        state_after (load_new_checkpoints path nettype dns) s = s').
Proof.
  intros s'. subst s'.
  split; [|split; [|split; [|split]]].
  - destruct (load_checkpoints_from_json_state path s) as [->|[hashes ->]];
      [reflexivity|apply load_hashlines_difficulty_map].
  - intros k h Hfind.
    destruct (load_checkpoints_from_json_state path s) as [->|[hashes ->]];
      [exact Hfind|now apply load_hashlines_keeps_anchors].
  - intros k Hk.
    destruct (load_checkpoints_from_json_state path s) as [->|[hashes ->]];
      [reflexivity|now apply load_hashlines_below_baseline].
  - intros Hwf.
    destruct (load_checkpoints_from_json_state path s) as [->|[hashes ->]];
      [exact Hwf|now apply load_hashlines_well_formed].
  - intros nettype dns. unfold load_new_checkpoints, state_after, bind.
    destruct (load_checkpoints_from_json path s) as [r s1].
    now destruct dns.
Qed.

Lemma above_max_not_anchored s k :
  well_formed s -> result get_max_height s < k ->
  OMap.find (m_points s) k = None.
Proof.
  intros Hwf Hlt.
  destruct (OMap.find (m_points s) k) as [h|] eqn:Hfind; [|reflexivity].
  apply OMapFacts.find_Some_key in Hfind.
  destruct (anchored_below_max s k Hwf Hfind) as [Hle _]. lia.
Qed.

Lemma load_hashlines_succeeds baseline lines s :
  records_decode baseline lines ->
  records_agree baseline lines ->
  (forall l h', In l lines -> baseline < hl_height l ->
                OMap.find (m_points s) (hl_height l) = Some h' ->
                hex_to_pod (hl_hash l) = Some h') ->
  result (load_hashlines baseline lines) s = true.
Proof.
  revert s. induction lines as [|l rest IH]; intros s Hdec Hagree Hinv;
    [reflexivity|].
  assert (Hdec' : records_decode baseline rest)
    by (intros l0 Hl0; apply Hdec; now right).
  assert (Hagree' : records_agree baseline rest)
    by (intros l1 l2 H1 H2; apply Hagree; now right).
  unfold result in *.
  destruct (N.le_gt_cases (hl_height l) baseline) as [Hle|Hgt].
  - rewrite load_hashlines_skip by assumption.
    apply IH; auto. intros l0 h' Hl0. apply Hinv. now right.
  - rewrite load_hashlines_add by assumption. unfold bind.
    destruct (Hdec l (or_introl eq_refl) Hgt) as [h Hhex].
    assert (Hc : check_no_conflict hash_eqb (m_points s) (hl_height l) h
                 = true).
    { apply no_hash_conflict_iff. intros h' Hfind.
      pose proof (Hinv l h' (or_introl eq_refl) Hgt Hfind) as Hh'.
      congruence. }
    rewrite (add_checkpoint_no_difficulty _ _ s h Hhex Hc).
    apply IH; auto. intros l0 h' Hl0 Hgt0. simpl.
    destruct (N.eq_dec (hl_height l0) (hl_height l)) as [Heq|Hne].
    + rewrite Heq, OMapFacts.find_assign_same. intros [= <-].
      rewrite <- Hhex. symmetry.
      apply Hagree; [now left|now right|exact Hgt|now symmetry].
    + rewrite OMapFacts.find_assign_other by assumption.
      apply Hinv; [now right|exact Hgt0].
Qed.

(** X15.  Anchors already in the store never make a file fail.  For a
    store ordered by height and a file that exists and parses,
    [load_checkpoints_from_json] returns success exactly when every record
    above the baseline carries a hash string that decodes and the records
    above the baseline that share a height decode to the same hash. *)
Theorem load_checkpoints_from_json_succeeds_iff path hashes s :
  well_formed s ->
  file_exists path = true ->
  load_t_from_json_file path = Some hashes ->
  let baseline := result get_max_height s in
  result (load_checkpoints_from_json path) s = true
  <-> records_decode baseline (hashlines hashes)
      /\ records_agree baseline (hashlines hashes).
Proof.
  intros Hwf Hex Hparse baseline. unfold result at 1.
  rewrite (load_checkpoints_from_json_parsed path hashes s Hex Hparse).
  fold baseline. split.
  - destruct (load_hashlines baseline (hashlines hashes) s) as [r s1]
      eqn:Hrun. simpl. intros ->.
    destruct (load_hashlines_success _ _ _ _ Hrun) as (_ & Hin & _).
    split.
    + intros l Hl Hgt. destruct (Hin l Hl Hgt) as (h & Hhex & _). eauto.
    + intros l1 l2 H1 H2 Hgt Heq.
      destruct (Hin l1 H1 Hgt) as (h1 & Hhex1 & Hf1).
      assert (Hgt2 : baseline < hl_height l2) by lia.
      destruct (Hin l2 H2 Hgt2) as (h2 & Hhex2 & Hf2).
      rewrite Heq in Hf1. congruence.
  - intros [Hdec Hagree].
    apply (load_hashlines_succeeds baseline (hashlines hashes) s Hdec Hagree).
    intros l h' _ Hgt Hfind.
    rewrite (above_max_not_anchored s (hl_height l) Hwf Hgt) in Hfind.
    discriminate.
Qed.

Lemma load_hashlines_all_skipped baseline lines s :
  (forall l, In l lines -> hl_height l <= baseline) ->
  load_hashlines baseline lines s = (true, s).
Proof.
  induction lines as [|l rest IH]; intros Hall; [reflexivity|].
  rewrite load_hashlines_skip by (apply Hall; now left).
  apply IH. intros l0 Hl0. apply Hall. now right.
Qed.

Lemma found_below_max s k h :
  well_formed s -> OMap.find (m_points s) k = Some h ->
  k <= result get_max_height s.
Proof.
  intros Hwf Hfind. apply OMapFacts.find_Some_key in Hfind.
  now destruct (anchored_below_max s k Hwf Hfind).
Qed.

Lemma load_hashlines_max_height_grows baseline lines s :
  well_formed s ->
  result get_max_height s
  <= result get_max_height (state_after (load_hashlines baseline lines) s).
Proof.
  intros Hwf.
  destruct (m_points s) as [|e rest] eqn:Hp.
  - unfold get_max_height at 1. unfold_method. rewrite Hp. simpl. lia.
  - assert (Hne : m_points s <> []) by (rewrite Hp; discriminate).
    destruct (get_max_height_greatest s Hwf Hne) as [Hin _].
    destruct Hwf as [Hord Hd].
    destruct (OMapFacts.In_key_find _ _ Hord Hin) as [h Hfind].
    apply (found_below_max _ _ h).
    + apply load_hashlines_well_formed. now split.
    + now apply load_hashlines_keeps_anchors.
Qed.

(** X16.  A load that succeeded can be repeated: for a store ordered by
    height, when [load_checkpoints_from_json] has returned success, every
    record of the file lies at or below the new [get_max_height], and a
    second load of the same file returns success and changes nothing. *)
Theorem load_checkpoints_from_json_reload path s :
  well_formed s ->
  result (load_checkpoints_from_json path) s = true ->
  let s' := state_after (load_checkpoints_from_json path) s in
  load_checkpoints_from_json path s' = (true, s')
  /\ (forall hashes l,
        file_exists path = true ->
        load_t_from_json_file path = Some hashes ->
        In l (hashlines hashes) ->
        hl_height l <= result get_max_height s').
Proof.
  intros Hwf Hok s'. subst s'. unfold result at 1 in Hok.
  unfold state_after.
  destruct (file_exists path) eqn:Hex.
  2:{ rewrite (load_checkpoints_from_json_missing path s Hex). simpl.
      split; [now apply load_checkpoints_from_json_missing|].
      intros; discriminate. }
  destruct (load_t_from_json_file path) as [hashes|] eqn:Hparse.
  2:{ rewrite (load_checkpoints_from_json_unparsed path s Hex Hparse) in Hok.
      discriminate. }
  rewrite (load_checkpoints_from_json_parsed path hashes s Hex Hparse) in *.
  set (baseline := result get_max_height s) in *.
  destruct (load_hashlines baseline (hashlines hashes) s) as [r s1] eqn:Hrun.
  simpl in Hok |- *. subst r.
  assert (Hwf1 : well_formed s1).
  { pose proof (load_hashlines_well_formed baseline (hashlines hashes) s Hwf)
      as H. unfold state_after in H. now rewrite Hrun in H. }
  assert (Hgrow : baseline <= result get_max_height s1).
  { pose proof (load_hashlines_max_height_grows baseline (hashlines hashes)
                  s Hwf) as H.
    unfold state_after in H. now rewrite Hrun in H. }
  assert (Hall : forall l, In l (hashlines hashes) ->
                           hl_height l <= result get_max_height s1).
  { intros l Hl.
    destruct (N.le_gt_cases (hl_height l) baseline) as [Hle|Hgt]; [lia|].
    destruct (load_hashlines_success _ _ _ _ Hrun) as (_ & Hin & _).
    destruct (Hin l Hl Hgt) as (h & _ & Hfind).
    now apply (found_below_max s1 _ h). }
  split.
  - rewrite (load_checkpoints_from_json_parsed path hashes s1 Hex Hparse).
    now apply load_hashlines_all_skipped.
  - intros hashes' l _ [= <-]. apply Hall.
Qed.

End LoadMore.

(** ** Properties of the default tables *)

Section DefaultsMore.
Context {E : Externals}.
Implicit Types (s t : checkpoints) (height : N) (h : hash).

Lemma extends_refl s : extends s s.
Proof. split; auto. Qed.

Lemma extends_trans s t u : extends s t -> extends t u -> extends s u.
Proof. intros [H1 H2] [H3 H4]. split; auto. Qed.

Lemma add_default_checkpoints_extends table s :
  extends s (state_after (add_default_checkpoints table) s).
Proof.
  revert s.
  induction table as [|[[height hash_str] difficulty_str] rest IH];
    intros s; [apply extends_refl|].
  unfold state_after in *. simpl. unfold ADD_CHECKPOINT2, bind.
  pose proof (add_checkpoint_extends height hash_str difficulty_str s)
    as Hstep.
  unfold state_after in Hstep.
  destruct (add_checkpoint height hash_str difficulty_str s) as [[|] s1];
    simpl in *; [|exact Hstep].
  eapply extends_trans; [exact Hstep|apply IH].
Qed.

(** A call that succeeded succeeds again, and changes nothing, in every
    store that holds what the call left. *)
Lemma add_checkpoint_absorbed height hash_str difficulty_str s s1 t :
  add_checkpoint height hash_str difficulty_str s = (true, s1) ->
  extends s1 t ->
  add_checkpoint height hash_str difficulty_str t = (true, t).
Proof.
  intros Hrun [Hp Hd].
  destruct (add_checkpoint_cases height hash_str difficulty_str s)
    as [Hhex|h Hhex Hc|h Hhex Hc He|h Hhex Hc He Hdec|h d Hhex Hc He Hdec Hdc];
    try discriminate; injection Hrun as <-; simpl in *.
  - apply string_empty_true in He. subst difficulty_str.
    pose proof (Hp height h (OMapFacts.find_assign_same _ _ _)) as Hfind.
    rewrite (add_checkpoint_no_difficulty height hash_str t h Hhex).
    + rewrite OMapFacts.assign_same_value by assumption. now destruct t.
    + rewrite check_no_conflict_find, Hfind. apply hash_eqb_refl.
  - pose proof (Hp height h (OMapFacts.find_assign_same _ _ _)) as Hfind.
    pose proof (Hd height d (OMapFacts.find_assign_same _ _ _)) as Hdfind.
    rewrite (add_checkpoint_with_difficulty
               height hash_str difficulty_str t h d Hhex).
    + rewrite !OMapFacts.assign_same_value by assumption. now destruct t.
    + rewrite check_no_conflict_find, Hfind. apply hash_eqb_refl.
    + exact He.
    + exact Hdec.
    + apply (proj2 (no_difficulty_conflict_iff _ _ _)).
      intros d' Hd'. congruence.
Qed.

Lemma add_default_checkpoints_twice table s :
  add_default_checkpoints table
    (state_after (add_default_checkpoints table) s)
  = add_default_checkpoints table s.
Proof.
  revert s.
  induction table as [|[[height hash_str] difficulty_str] rest IH];
    intros s; [reflexivity|].
  unfold state_after in *. simpl. unfold ADD_CHECKPOINT2, bind.
  destruct (add_checkpoint height hash_str difficulty_str s) as [[|] s1]
    eqn:Hadd.
  - pose proof (add_default_checkpoints_extends rest s1) as Hext.
    unfold state_after in Hext.
    rewrite (add_checkpoint_absorbed _ _ _ _ _ _ Hadd Hext).
    apply IH.
  - simpl.
    pose proof (add_checkpoint_twice height hash_str difficulty_str s) as H.
    unfold state_after in H. rewrite Hadd in H. simpl in H.
    now rewrite H.
Qed.

(** X17.  [init_default_checkpoints] can be run again: for every network
    and every store, a second call returns what the first returned and
    leaves the store the first left; and a call never changes or removes
    an anchor that is in place. *)
Theorem init_default_checkpoints_idempotent (nettype : network_type) s :
  let s' := state_after (init_default_checkpoints nettype) s in
  init_default_checkpoints nettype s' = init_default_checkpoints nettype s
  /\ extends s s'.
Proof.
  intros s'. subst s'. split.
  - destruct nettype; apply add_default_checkpoints_twice.
  - destruct nettype; apply add_default_checkpoints_extends.
Qed.

Lemma distinct_heights_head k rest :
  distinct_heights (k :: rest) = true ->
  ~ In k rest /\ distinct_heights rest = true.
Proof.
  simpl. intros H. apply andb_prop in H as [H1 H2]. split; [|exact H2].
  intros Hin. apply negb_true_iff in H1.
  assert (Hex : existsb (N.eqb k) rest = true).
  { apply existsb_exists. exists k. split; [exact Hin|apply N.eqb_refl]. }
  congruence.
Qed.

Lemma add_default_checkpoints_fresh table s :
  distinct_heights (table_heights table) = true ->
  (forall k, In k (table_heights table) ->
             OMap.find (m_points s) k = None
             /\ OMap.find (m_difficulty_points s) k = None) ->
  (result (add_default_checkpoints table) s = true <-> table_decodes table).
Proof.
  revert s.
  induction table as [|[[height hash_str] difficulty_str] rest IH];
    intros s Hdist Hfresh.
  - split; [intros _ ? ? ? []|reflexivity].
  - apply distinct_heights_head in Hdist. destruct Hdist as [Hnotin Hdist].
    destruct (Hfresh height (or_introl eq_refl)) as [Hp Hd].
    assert (Hc : forall h,
      check_no_conflict hash_eqb (m_points s) height h = true)
      by (intros h; now rewrite check_no_conflict_find, Hp).
    assert (Hdc : forall d,
      check_no_conflict N.eqb (m_difficulty_points s) height d = true).
    { intros d. apply (proj2 (no_difficulty_conflict_iff _ _ _)).
      intros d' Hd'. rewrite Hd in Hd'. discriminate. }
    assert (Hrest : forall s1,
      (forall k, k <> height ->
         OMap.find (m_points s1) k = OMap.find (m_points s) k
         /\ OMap.find (m_difficulty_points s1) k
            = OMap.find (m_difficulty_points s) k) ->
      (result (add_default_checkpoints rest) s1 = true
       <-> table_decodes rest)).
    { intros s1 Hsame. apply IH; [exact Hdist|].
      intros k Hk.
      assert (Hne : k <> height) by (intros ->; contradiction).
      destruct (Hsame k Hne) as [-> ->]. apply Hfresh. now right. }
    unfold result in *. simpl. unfold ADD_CHECKPOINT2, bind.
    pose proof (add_checkpoint_frame height hash_str difficulty_str s)
      as Hframe.
    unfold state_after in Hframe.
    destruct (add_checkpoint_cases height hash_str difficulty_str s)
      as [Hhex|h Hhex Hc'|h Hhex Hc' He|h Hhex Hc' He Hdec
          |h d Hhex Hc' He Hdec Hdc'].
    + simpl. split; [discriminate|]. intros Hall.
      destruct (Hall height hash_str difficulty_str (or_introl eq_refl))
        as [[h Hh] _]. congruence.
    + rewrite Hc in Hc'. discriminate.
    + simpl in *. rewrite Hrest by (intros k Hne; now apply Hframe).
      apply string_empty_true in He. split.
      * intros Hall height0 hs ds [[= <- <- <-]|Hin];
          [|exact (Hall _ _ _ Hin)].
        split; [now exists h|now left].
      * intros Hall height0 hs ds Hin.
        exact (Hall _ _ _ (or_intror Hin)).
    + simpl. split; [discriminate|]. intros Hall.
      destruct (Hall height hash_str difficulty_str (or_introl eq_refl))
        as [_ [->|[d Hd0]]]; [discriminate|].
      destruct Hdec as [Hnone|(d' & Hd' & Hconf)]; [congruence|].
      rewrite Hdc in Hconf. discriminate.
    + simpl in *. rewrite Hrest by (intros k Hne; now apply Hframe).
      split.
      * intros Hall height0 hs ds [[= <- <- <-]|Hin];
          [|exact (Hall _ _ _ Hin)].
        split; [now exists h|right; now exists d].
      * intros Hall height0 hs ds Hin.
        exact (Hall _ _ _ (or_intror Hin)).
Qed.

End DefaultsMore.

Section InvariantMore.
Context {E : Externals}.
Implicit Types (s : checkpoints) (height : N) (h : hash).

(** X18.  The default tables carry no conflict of their own: for every
    network, on a store that has no anchor at the heights of the table (a
    fresh store, for one), [init_default_checkpoints] returns success
    exactly when every hash string and every difficulty string of the
    table decodes. *)
Theorem init_default_checkpoints_succeeds_iff (nettype : network_type) s :
  (forall k, In k (table_heights (default_table nettype)) ->
             OMap.find (m_points s) k = None
             /\ OMap.find (m_difficulty_points s) k = None) ->
  (result (init_default_checkpoints nettype) s = true
   <-> table_decodes (default_table nettype)).
Proof.
  intros Hfresh.
  destruct nettype; apply add_default_checkpoints_fresh;
    solve [reflexivity | exact Hfresh].
Qed.

Lemma add_default_checkpoints_keeps_difficulty_within_points table s :
  difficulty_within_points s ->
  difficulty_within_points (state_after (add_default_checkpoints table) s).
Proof.
  revert s.
  induction table as [|[[height hash_str] difficulty_str] rest IH];
    intros s Hinv; [exact Hinv|].
  unfold state_after in *. simpl. unfold ADD_CHECKPOINT2, bind.
  pose proof (proj2 (add_checkpoint_keeps_difficulty_within_points
                       height hash_str difficulty_str s) Hinv) as Hstep.
  unfold state_after in Hstep.
  destruct (add_checkpoint height hash_str difficulty_str s) as [[|] s1];
    simpl in *; auto.
Qed.

(** X6.  Every height with a difficulty anchor has a hash anchor.  The
    fresh store has the property, and [add_checkpoint],
    [init_default_checkpoints] and [load_new_checkpoints] (so
    [load_checkpoints_from_json] too) keep it, whatever they return. *)
Theorem difficulty_anchor_has_hash_anchor :
  difficulty_within_points new_checkpoints
  /\ (forall height hash_str difficulty_str s,
        difficulty_within_points s ->
        difficulty_within_points
          (state_after (add_checkpoint height hash_str difficulty_str) s))
  /\ (forall (nettype : network_type) s,
        difficulty_within_points s ->
        difficulty_within_points
          (state_after (init_default_checkpoints nettype) s))
  /\ (forall path (nettype : network_type) dns s,
        difficulty_within_points s ->
        difficulty_within_points
          (state_after (load_new_checkpoints path nettype dns) s)).
Proof.
  split; [intros k d; discriminate|]. split; [|split].
  - intros height hash_str difficulty_str s.
    apply add_checkpoint_keeps_difficulty_within_points.
  - intros nettype s Hinv.
    destruct nettype;
      now apply add_default_checkpoints_keeps_difficulty_within_points.
  - intros path nettype dns s Hinv.
    assert (Hstate : state_after (load_new_checkpoints path nettype dns) s
                     = state_after (load_checkpoints_from_json path) s).
    { unfold load_new_checkpoints, state_after, bind.
      destruct (load_checkpoints_from_json path s) as [r s1].
      now destruct dns. }
    rewrite Hstate. intros k d Hd.
    assert (Hd0 : OMap.find (m_difficulty_points s) k = Some d).
    { destruct (load_checkpoints_from_json_state path s) as [Hs|[hashes Hs]];
        rewrite Hs in Hd; [exact Hd|].
      now rewrite load_hashlines_difficulty_map in Hd. }
    destruct (Hinv k d Hd0) as [h Hh]. exists h.
    destruct (load_checkpoints_from_json_state path s) as [Hs|[hashes Hs]];
      rewrite Hs; [exact Hh|now apply load_hashlines_keeps_anchors].
Qed.

(** X20.  The height 0 that [get_max_height] returns is ambiguous: in a
    store ordered by height it is returned exactly when the store has no
    hash anchor or its only hash anchor is at height 0.
    [is_in_checkpoint_zone] tells the two apart: height 0 is in the zone
    exactly when the store has a hash anchor. *)
Theorem get_max_height_zero_iff s :
  well_formed s ->
  (result get_max_height s = 0
   <-> m_points s = [] \/ anchored_heights s = [0])
  /\ result (is_in_checkpoint_zone 0) s = negb (OMap.empty (m_points s)).
Proof.
  intros Hwf. split.
  - split.
    + intros Hzero.
      destruct (m_points s) as [|[k v] rest] eqn:Hp; [now left|right].
      assert (Hne : m_points s <> []) by (rewrite Hp; discriminate).
      destruct (get_max_height_greatest s Hwf Hne) as [_ Hmax].
      rewrite Hzero in Hmax. unfold anchored_heights in *.
      rewrite Hp in *. simpl in *.
      assert (Hk : k = 0) by (specialize (Hmax k (or_introl eq_refl)); lia).
      subst k. destruct rest as [|[k' v'] rest']; [reflexivity|].
      destruct Hwf as [Hord _]. rewrite Hp in Hord. simpl in Hord.
      apply andb_prop in Hord as [Hlt _]. apply N.ltb_lt in Hlt.
      specialize (Hmax k' (or_intror (or_introl eq_refl))). lia.
    + unfold anchored_heights. intros [Hnil|Hone].
      * unfold get_max_height. unfold_method. now rewrite Hnil.
      * unfold get_max_height. unfold_method.
        destruct (m_points s) as [|[k v] [|e rest]]; simpl in Hone;
          try discriminate.
        injection Hone as ->. reflexivity.
  - unfold is_in_checkpoint_zone. unfold_method.
    destruct (m_points s); [reflexivity|]. simpl.
    apply N.leb_le. lia.
Qed.

(** X21.  What a file has loaded is enforced: for a file that exists and
    parses, after [load_checkpoints_from_json] has returned success, every
    record above the baseline carries a hash string that decodes, and
    [check_block] at its height accepts the decoded hash and rejects every
    other hash. *)
Theorem load_checkpoints_from_json_then_check_block path hashes s l :
  file_exists path = true ->
  load_t_from_json_file path = Some hashes ->
  result (load_checkpoints_from_json path) s = true ->
  In l (hashlines hashes) ->
  result get_max_height s < hl_height l ->
  let s' := state_after (load_checkpoints_from_json path) s in
  exists h,
    hex_to_pod (hl_hash l) = Some h
    /\ check_block (hl_height l) h s' = ((true, true), s')
    /\ forall h', h' <> h ->
                  check_block (hl_height l) h' s' = ((false, true), s').
Proof.
  intros Hex Hparse Hok Hl Hgt s'. subst s'.
  unfold result at 1 in Hok. unfold state_after.
  rewrite (load_checkpoints_from_json_parsed path hashes s Hex Hparse) in *.
  destruct (load_hashlines (result get_max_height s) (hashlines hashes) s)
    as [r s1] eqn:Hrun.
  simpl in Hok |- *. subst r.
  destruct (load_hashlines_success _ _ _ _ Hrun) as (_ & Hin & _).
  destruct (Hin l Hl Hgt) as (h & Hhex & Hfind).
  exists h. split; [exact Hhex|]. split.
  - rewrite (check_block_at _ h h s1 Hfind). now rewrite hash_eqb_refl.
  - intros h' Hne. rewrite (check_block_at _ h' h s1 Hfind).
    rewrite hash_eqb_neq; [reflexivity|congruence].
Qed.

End InvariantMore.

(** ** Calls at different heights *)

Section CommuteMore.
Context {E : Externals}.
Implicit Types (s t : checkpoints) (height : N) (h : hash).

Lemma assign_comm {V : Type} (m : OMap.t V) k1 (v1 : V) k2 (v2 : V) :
  k1 <> k2 ->
  OMap.assign (OMap.assign m k1 v1) k2 v2
  = OMap.assign (OMap.assign m k2 v2) k1 v1.
Proof.
  intros Hne. induction m as [|[k v] rest IH]; simpl.
  - destruct (k2 <? k1) eqn:H1, (k1 <? k2) eqn:H2,
             (k2 =? k1) eqn:H3, (k1 =? k2) eqn:H4;
      try reflexivity; height_cases; lia.
  - destruct (k1 <? k) eqn:A1, (k2 <? k) eqn:A2,
             (k1 =? k) eqn:B1, (k2 =? k) eqn:B2; simpl;
      rewrite ?A1, ?A2, ?B1, ?B2;
      destruct (k2 <? k1) eqn:H1, (k1 <? k2) eqn:H2,
               (k2 =? k1) eqn:H3, (k1 =? k2) eqn:H4;
      simpl; rewrite ?A1, ?A2, ?B1, ?B2; try rewrite IH; try reflexivity;
      height_cases; lia.
Qed.

(** What a call does depends on the store only through the two entries at
    its height: it returns [r] and rewrites the two maps by [P] and [D],
    each the identity or one assignment at the height, in every store that
    has these two entries. *)
Lemma add_checkpoint_effect height hash_str difficulty_str s :
  exists (r : bool) (P : OMap.t hash -> OMap.t hash)
         (D : OMap.t difficulty_type -> OMap.t difficulty_type),
    (P = (fun m => m) \/ exists h, P = (fun m => OMap.assign m height h))
    /\ (D = (fun m => m)
        \/ exists d, D = (fun m => OMap.assign m height d))
    /\ forall t,
         OMap.find (m_points t) height = OMap.find (m_points s) height ->
         OMap.find (m_difficulty_points t) height
         = OMap.find (m_difficulty_points s) height ->
         add_checkpoint height hash_str difficulty_str t
         = (r, mk_checkpoints (P (m_points t)) (D (m_difficulty_points t))).
Proof.
  assert (Hp : forall t h,
    OMap.find (m_points t) height = OMap.find (m_points s) height ->
    check_no_conflict hash_eqb (m_points t) height h
    = check_no_conflict hash_eqb (m_points s) height h)
    by (intros t h Heq; rewrite !check_no_conflict_find; now rewrite Heq).
  assert (Hd : forall t d,
    OMap.find (m_difficulty_points t) height
    = OMap.find (m_difficulty_points s) height ->
    check_no_conflict N.eqb (m_difficulty_points t) height d
    = check_no_conflict N.eqb (m_difficulty_points s) height d).
  { intros t d Heq. rewrite !check_no_conflict_find.
    unfold difficulty_type in *. now rewrite Heq. }
  destruct (add_checkpoint_cases height hash_str difficulty_str s)
    as [Hhex|h Hhex Hc|h Hhex Hc He|h Hhex Hc He Hdec|h d Hhex Hc He Hdec Hdc].
  - exists false, (fun m => m), (fun m => m).
    split; [now left|]. split; [now left|]. intros t _ _.
    rewrite add_checkpoint_bad_hash by assumption. now destruct t.
  - exists false, (fun m => m), (fun m => m).
    split; [now left|]. split; [now left|]. intros t Ht _.
    rewrite (add_checkpoint_hash_conflict _ _ _ t h Hhex)
      by (now rewrite Hp). now destruct t.
  - exists true, (fun m => OMap.assign m height h), (fun m => m).
    split; [right; now exists h|]. split; [now left|]. intros t Ht _.
    apply string_empty_true in He. subst difficulty_str.
    now rewrite (add_checkpoint_no_difficulty _ _ t h Hhex)
      by (now rewrite Hp).
  - exists false, (fun m => OMap.assign m height h), (fun m => m).
    split; [right; now exists h|]. split; [now left|]. intros t Ht Htd.
    destruct Hdec as [Hnone|(d & Hsome & Hdc)].
    + now rewrite (add_checkpoint_bad_difficulty _ _ _ t h Hhex)
        by (auto; now rewrite Hp).
    + rewrite (add_checkpoint_difficulty_conflict _ _ _ t h d Hhex);
        auto; [now rewrite Hp|now rewrite Hd].
  - exists true, (fun m => OMap.assign m height h),
      (fun m => OMap.assign m height d).
    split; [right; now exists h|]. split; [right; now exists d|].
    intros t Ht Htd.
    rewrite (add_checkpoint_with_difficulty _ _ _ t h d Hhex);
      auto; [now rewrite Hp|now rewrite Hd].
Qed.

(** X22.  Calls of [add_checkpoint] at different heights do not see each
    other: in either order each call returns the same result, and the two
    orders leave the same store. *)
Theorem add_checkpoint_commute
    height1 hash_str1 difficulty_str1 height2 hash_str2 difficulty_str2 s :
  height1 <> height2 ->
  let first := add_checkpoint height1 hash_str1 difficulty_str1 in
  let second := add_checkpoint height2 hash_str2 difficulty_str2 in
  result first (state_after second s) = result first s
  /\ result second (state_after first s) = result second s
  /\ state_after second (state_after first s)
     = state_after first (state_after second s).
Proof.
  intros Hne first second. subst first second.
  destruct (add_checkpoint_effect height1 hash_str1 difficulty_str1 s)
    as (r1 & P1 & D1 & HP1 & HD1 & Hrun1).
  destruct (add_checkpoint_effect height2 hash_str2 difficulty_str2 s)
    as (r2 & P2 & D2 & HP2 & HD2 & Hrun2).
  assert (HfP1 : forall m, OMap.find (P1 m) height2 = OMap.find m height2).
  { intros m. destruct HP1 as [->|[h ->]]; [reflexivity|].
    apply OMapFacts.find_assign_other. congruence. }
  assert (HfD1 : forall m, OMap.find (D1 m) height2 = OMap.find m height2).
  { intros m. destruct HD1 as [->|[d ->]]; [reflexivity|].
    apply OMapFacts.find_assign_other. congruence. }
  assert (HfP2 : forall m, OMap.find (P2 m) height1 = OMap.find m height1).
  { intros m. destruct HP2 as [->|[h ->]]; [reflexivity|].
    now apply OMapFacts.find_assign_other. }
  assert (HfD2 : forall m, OMap.find (D2 m) height1 = OMap.find m height1).
  { intros m. destruct HD2 as [->|[d ->]]; [reflexivity|].
    now apply OMapFacts.find_assign_other. }
  unfold result, state_after.
  rewrite (Hrun1 s eq_refl eq_refl), (Hrun2 s eq_refl eq_refl). simpl.
  rewrite Hrun1 by (simpl; auto). rewrite Hrun2 by (simpl; auto). simpl.
  split; [reflexivity|]. split; [reflexivity|]. f_equal.
  - destruct HP1 as [->|[h1 ->]], HP2 as [->|[h2 ->]]; try reflexivity.
    now apply assign_comm.
  - destruct HD1 as [->|[d1 ->]], HD2 as [->|[d2 ->]]; try reflexivity.
    now apply assign_comm.
Qed.

End CommuteMore.

(** ** The methods run on the fixture *)

Import Fixture.

Lemma mainnet_defaults_load :
  result (init_default_checkpoints MAINNET) new_checkpoints = true
  /\ result get_max_height mainnet_store = 16500
  /\ well_formed mainnet_store.
Proof. repeat split; vm_compute; reflexivity. Qed.

Lemma three_anchors_well_formed : well_formed three_anchors.
Proof. split; reflexivity. Qed.

Lemma is_alternative_block_allowed_policy_witness :
  well_formed three_anchors
  /\ result (is_alternative_block_allowed 1600 0) three_anchors = false
  /\ result (is_alternative_block_allowed 400 100) three_anchors = true
  /\ exists g,
       greatest_anchor_at_or_below three_anchors 1600 g
       /\ (result (is_alternative_block_allowed 1600 1501) three_anchors = true
           <-> g < 1501).
Proof.
  pose proof (proj1 is_alternative_block_allowed_policy
                three_anchors) as H.
  split; [exact three_anchors_well_formed|].
  split; [|split].
  - apply (H 1600 0 three_anchors_well_formed). reflexivity.
  - apply (H 400 100 three_anchors_well_formed); [lia|].
    simpl. intros k [<-|[<-|[<-|[]]]]; lia.
  - apply (H 1600 1501 three_anchors_well_formed); [lia|].
    intros Hall. specialize (Hall 500). simpl in Hall.
    assert (1600 < 500) by (apply Hall; now left). lia.
Defined.

Lemma check_block_verdict_witness :
  (OMap.find (m_points three_anchors) 1000 = Some h1000
   /\ check_block 1000 h1000 three_anchors = ((true, true), three_anchors))
  /\ (OMap.find (m_points three_anchors) 1000 = Some h1000 /\ h1000 <> h500
      /\ check_block 1000 h500 three_anchors = ((false, true), three_anchors))
  /\ (OMap.find (m_points three_anchors) 1001 = None
      /\ check_block 1001 h500 three_anchors = ((true, false), three_anchors)).
Proof.
  assert (Hne : h1000 <> h500) by (vm_compute; discriminate).
  split; [|split].
  - split; [reflexivity|].
    apply (check_block_verdict (E:=externals) 1000 h1000 three_anchors).
    reflexivity.
  - split; [reflexivity|]. split; [exact Hne|].
    apply (check_block_verdict (E:=externals) 1000 h500 three_anchors)
      with h1000;
      [reflexivity|exact Hne].
  - split; [reflexivity|].
    apply (check_block_verdict (E:=externals) 1001 h500 three_anchors).
    reflexivity.
Defined.

Lemma add_checkpoint_conflict_rejected_witness :
  OMap.find (m_points three_anchors) 500 = Some h500
  /\ hex_to_pod hash_1000 = Some h1000
  /\ h1000 <> h500
  /\ result (add_checkpoint 500 hash_1000 "0x1181d0") three_anchors = false
  /\ state_after (add_checkpoint 500 hash_1000 "0x1181d0") three_anchors
     = three_anchors
  /\ OMap.find
       (m_points
          (state_after (add_checkpoint 500 hash_1000 "0x1181d0")
             three_anchors)) 500 = Some h500.
Proof.
  assert (Hne : h1000 <> h500) by (vm_compute; discriminate).
  split; [reflexivity|]. split; [reflexivity|]. split; [exact Hne|].
  apply (add_checkpoint_conflict_rejected (E:=externals)) with h1000;
    [reflexivity|reflexivity|exact Hne].
Defined.

Lemma add_checkpoint_idempotent_witness :
  hex_to_pod hash_500 = Some h500
  /\ OMap.find (m_points new_checkpoints) 500 = None
  /\ difficulty_of_string "0x1181d0" = Some 1147344
  /\ result (add_checkpoint 500 hash_500 "0x1181d0") new_checkpoints = true
  /\ result (add_checkpoint 500 hash_500 "0x1181d0")
       (state_after (add_checkpoint 500 hash_500 "0x1181d0") new_checkpoints)
     = true
  /\ state_after (add_checkpoint 500 hash_500 "0x1181d0")
       (state_after (add_checkpoint 500 hash_500 "0x1181d0") new_checkpoints)
     = state_after (add_checkpoint 500 hash_500 "0x1181d0") new_checkpoints.
Proof.
  split; [reflexivity|]. split; [reflexivity|]. split; [reflexivity|].
  apply (proj1 (add_checkpoint_idempotent (E:=externals)
                  500 hash_500 "0x1181d0" new_checkpoints) h500).
  - reflexivity.
  - simpl. discriminate.
  - right. exists 1147344. split; [reflexivity|]. simpl. discriminate.
Defined.

Lemma checkpoint_zone_and_max_height_witness :
  well_formed three_anchors
  /\ m_points three_anchors <> []
  /\ greatest_anchor three_anchors (result get_max_height three_anchors)
  /\ (result (is_in_checkpoint_zone 1500) three_anchors = true
      <-> 1500 <= result get_max_height three_anchors).
Proof.
  assert (Hne : m_points three_anchors <> []) by (simpl; discriminate).
  split; [exact three_anchors_well_formed|]. split; [exact Hne|].
  destruct (proj2 checkpoint_zone_and_max_height three_anchors
              three_anchors_well_formed Hne) as [Hmax Hzone].
  split; [exact Hmax|apply Hzone].
Defined.

Lemma load_failure_keeps_processed_prefix_witness :
  result (load_checkpoints_from_json "partial.json") new_checkpoints = false
  /\ file_exists "partial.json" = true
  /\ ((load_t_from_json_file "partial.json" = None
       /\ state_after (load_checkpoints_from_json "partial.json")
            new_checkpoints = new_checkpoints)
      \/ exists hashes pre bad post,
           load_t_from_json_file "partial.json" = Some hashes
           /\ hashlines hashes = pre ++ bad :: post
           /\ result get_max_height new_checkpoints < hl_height bad
           /\ load_hashlines (result get_max_height new_checkpoints) pre
                new_checkpoints
              = (true,
                 state_after (load_checkpoints_from_json "partial.json")
                   new_checkpoints)
           /\ anchors_added (result get_max_height new_checkpoints) pre
                new_checkpoints
                (state_after (load_checkpoints_from_json "partial.json")
                   new_checkpoints)
           /\ (hex_to_pod (hl_hash bad) = None
               \/ exists h h',
                    hex_to_pod (hl_hash bad) = Some h
                    /\ OMap.find
                         (m_points
                            (state_after
                               (load_checkpoints_from_json "partial.json")
                               new_checkpoints)) (hl_height bad) = Some h'
                    /\ h' <> h)).
Proof.
  split; [reflexivity|].
  apply (load_failure_keeps_processed_prefix (E:=externals)
           "partial.json" new_checkpoints).
  reflexivity.
Defined.


Lemma add_checkpoint_fails_after_storing_hash_witness :
  hex_to_pod hash_500 = Some h500
  /\ OMap.find (m_points new_checkpoints) 500 = None
  /\ difficulty_of_string "oops" = None
  /\ result (add_checkpoint 500 hash_500 "oops") new_checkpoints = false
  /\ OMap.find
       (m_points
          (state_after (add_checkpoint 500 hash_500 "oops") new_checkpoints))
       500 = Some h500
  /\ m_difficulty_points
       (state_after (add_checkpoint 500 hash_500 "oops") new_checkpoints)
     = m_difficulty_points new_checkpoints
  /\ (OMap.find (m_points new_checkpoints) 500 = None ->
      state_after (add_checkpoint 500 hash_500 "oops") new_checkpoints
      <> new_checkpoints).
Proof.
  split; [reflexivity|]. split; [reflexivity|]. split; [reflexivity|].
  apply (add_checkpoint_fails_after_storing_hash (E:=externals)
           500 hash_500 "oops" new_checkpoints h500).
  - reflexivity.
  - simpl. discriminate.
  - discriminate.
  - left. reflexivity.
Defined.

Lemma check_for_conflicts_only_checks_witness :
  OMap.ordered (m_points three_anchors) = true
  /\ state_after (check_for_conflicts three_anchors) mainnet_store
     = mainnet_store
  /\ result (check_for_conflicts three_anchors) mainnet_store
     = result (spec_merge three_anchors) mainnet_store.
Proof.
  destruct (check_for_conflicts_only_checks (E:=externals)
              mainnet_store three_anchors) as (Hconst & _ & Hmerge & _).
  split; [reflexivity|]. split; [exact Hconst|].
  apply Hmerge. reflexivity.
Defined.

(** ** Where the claims and the code part *)

(** C9, as stated, fails: at a height that carries another hash anchor the
    insertion of a valid hash fails, the first time and the second; and on
    a fresh store the insertion of a valid hash with a malformed difficulty
    argument fails both times as well. *)
Lemma insert_twice_fails_on_conflict :
  hex_to_pod hash_1000 = Some h1000
  /\ result (add_checkpoint 500 hash_1000 "") three_anchors = false
  /\ result (add_checkpoint 500 hash_1000 "")
       (state_after (add_checkpoint 500 hash_1000 "") three_anchors) = false
  /\ hex_to_pod hash_500 = Some h500
  /\ result (add_checkpoint 500 hash_500 "oops") new_checkpoints = false
  /\ result (add_checkpoint 500 hash_500 "oops")
       (state_after (add_checkpoint 500 hash_500 "oops") new_checkpoints)
     = false.
Proof.
  split; [reflexivity|]. split; [reflexivity|]. split; [reflexivity|].
  split; [reflexivity|]. split; reflexivity.
Qed.

(** C4, as stated, fails: the load of the file [partial.json] into a fresh
    store returns failure at its second record, and the anchor of its first
    record stays in the store. *)
Lemma load_failure_not_atomic :
  result (load_checkpoints_from_json "partial.json") new_checkpoints = false
  /\ OMap.find
       (m_points
          (state_after (load_checkpoints_from_json "partial.json")
             new_checkpoints)) 17000 = Some h1000
  /\ state_after (load_checkpoints_from_json "partial.json") new_checkpoints
     <> new_checkpoints.
Proof.
  assert (Hkept : OMap.find
            (m_points
               (state_after (load_checkpoints_from_json "partial.json")
                  new_checkpoints)) 17000 = Some h1000) by reflexivity.
  split; [reflexivity|]. split; [exact Hkept|].
  intros Heq. rewrite Heq in Hkept. discriminate Hkept.
Qed.

(** C5, as stated, fails: at a height that carries another hash anchor the
    call with a valid hex hash and a malformed difficulty string returns
    failure and the pair has not been stored. *)
Lemma add_checkpoint_conflict_stores_nothing :
  hex_to_pod hash_1000 = Some h1000
  /\ string_empty "oops" = false
  /\ difficulty_of_string "oops" = None
  /\ result (add_checkpoint 500 hash_1000 "oops") three_anchors = false
  /\ OMap.find
       (m_points
          (state_after (add_checkpoint 500 hash_1000 "oops") three_anchors))
       500 <> Some h1000.
Proof.
  assert (Hne : h500 <> h1000) by (vm_compute; discriminate).
  assert (Hold : OMap.find
            (m_points
               (state_after (add_checkpoint 500 hash_1000 "oops")
                  three_anchors)) 500 = Some h500) by reflexivity.
  split; [reflexivity|]. split; [reflexivity|]. split; [reflexivity|].
  split; [reflexivity|].
  rewrite Hold. intros Heq. apply Hne. congruence.
Qed.

(** C7, as stated, fails: [check_for_conflicts] succeeds against a store
    with three anchors and inserts none of them, where applying the
    hash-anchor insert to each would leave them in this store. *)
Lemma check_for_conflicts_inserts_nothing :
  result (check_for_conflicts three_anchors) new_checkpoints = true
  /\ OMap.find
       (m_points
          (state_after (check_for_conflicts three_anchors) new_checkpoints))
       500 = None
  /\ OMap.find
       (m_points (state_after (spec_merge three_anchors) new_checkpoints))
       500 = Some h500
  /\ state_after (check_for_conflicts three_anchors) new_checkpoints
     <> state_after (spec_merge three_anchors) new_checkpoints.
Proof.
  assert (Hnone : OMap.find
            (m_points
               (state_after (check_for_conflicts three_anchors)
                  new_checkpoints)) 500 = None) by reflexivity.
  assert (Hsome : OMap.find
            (m_points (state_after (spec_merge three_anchors)
                         new_checkpoints)) 500 = Some h500) by reflexivity.
  split; [reflexivity|]. split; [exact Hnone|]. split; [exact Hsome|].
  intros Heq. rewrite Heq, Hsome in Hnone. discriminate Hnone.
Qed.


(** ** The further properties run on the fixture *)

Lemma add_checkpoint_succeeds_iff_witness :
  hex_to_pod hash_500 = Some h500
  /\ result (add_checkpoint 500 hash_500 "0x1181d0") new_checkpoints = true.
Proof.
  split; [reflexivity|].
  apply (proj2 (add_checkpoint_succeeds_iff (E:=externals)
                  500 hash_500 "0x1181d0" new_checkpoints)).
  exists h500. split; [reflexivity|]. split; [simpl; discriminate|].
  right. exists 1147344. split; [reflexivity|]. simpl. discriminate.
Defined.

Lemma add_checkpoint_append_only_witness :
  OMap.find (m_points three_anchors) 1000 = Some h1000
  /\ OMap.find
       (m_points
          (state_after (add_checkpoint 500 hash_1000 "oops") three_anchors))
       1000 = Some h1000.
Proof.
  split; [reflexivity|].
  apply (proj1 (add_checkpoint_append_only (E:=externals)
                  500 hash_1000 "oops" three_anchors)).
  reflexivity.
Defined.

Lemma add_checkpoint_frame_witness :
  1000 <> 2000
  /\ OMap.find
       (m_points
          (state_after (add_checkpoint 2000 hash_500 "0x1") three_anchors))
       1000 = OMap.find (m_points three_anchors) 1000
  /\ OMap.find
       (m_difficulty_points
          (state_after (add_checkpoint 2000 hash_500 "0x1") three_anchors))
       1000 = OMap.find (m_difficulty_points three_anchors) 1000.
Proof.
  split; [discriminate|].
  apply (add_checkpoint_frame (E:=externals)
           2000 hash_500 "0x1" three_anchors 1000).
  discriminate.
Defined.

Lemma add_checkpoint_then_check_block_witness :
  result (add_checkpoint 2000 hash_500 "") three_anchors = true
  /\ exists h,
       hex_to_pod hash_500 = Some h
       /\ check_block 2000 h
            (state_after (add_checkpoint 2000 hash_500 "") three_anchors)
          = ((true, true),
             state_after (add_checkpoint 2000 hash_500 "") three_anchors)
       /\ result (is_in_checkpoint_zone 2000)
            (state_after (add_checkpoint 2000 hash_500 "") three_anchors)
          = true.
Proof.
  split; [reflexivity|].
  destruct (add_checkpoint_then_check_block (E:=externals)
              2000 hash_500 "" three_anchors eq_refl)
    as (h & Hhex & Hok & _ & Hzone).
  exists h. split; [exact Hhex|]. split; [exact Hok|].
  exact (proj1 (Hzone three_anchors_well_formed)).
Defined.

Lemma add_checkpoint_failure_effect_witness :
  result (add_checkpoint 500 hash_500 "oops") new_checkpoints = false
  /\ m_difficulty_points
       (state_after (add_checkpoint 500 hash_500 "oops") new_checkpoints)
     = m_difficulty_points new_checkpoints
  /\ result (add_checkpoint 500 "zz" "") new_checkpoints = false
  /\ state_after (add_checkpoint 500 "zz" "") new_checkpoints
     = new_checkpoints.
Proof.
  split; [reflexivity|]. split.
  - apply (add_checkpoint_failure_effect (E:=externals)
             500 hash_500 "oops" new_checkpoints).
    reflexivity.
  - split; [reflexivity|].
    apply (add_checkpoint_failure_effect (E:=externals)
             500 "zz" "" new_checkpoints); reflexivity.
Defined.

Lemma difficulty_anchor_has_hash_anchor_witness :
  difficulty_within_points new_checkpoints
  /\ difficulty_within_points
       (state_after (add_checkpoint 500 hash_500 "0x1181d0") new_checkpoints)
  /\ difficulty_within_points mainnet_store.
Proof.
  destruct (difficulty_anchor_has_hash_anchor (E:=externals))
    as (Hnew & Hadd & Hinit & _).
  split; [exact Hnew|]. split.
  - apply Hadd. exact Hnew.
  - apply (Hinit MAINNET new_checkpoints). exact Hnew.
Defined.

Lemma add_checkpoint_zone_grows_witness :
  well_formed three_anchors
  /\ result (add_checkpoint 2000 hash_500 "") three_anchors = true
  /\ result get_max_height
       (state_after (add_checkpoint 2000 hash_500 "") three_anchors)
     = N.max (result get_max_height three_anchors) 2000.
Proof.
  split; [exact three_anchors_well_formed|]. split; [reflexivity|].
  apply (add_checkpoint_zone_grows (E:=externals)
           2000 hash_500 "" three_anchors three_anchors_well_formed).
  reflexivity.
Defined.

Lemma anchored_height_in_checkpoint_zone_witness :
  well_formed three_anchors
  /\ snd (result (check_block 1000 h500) three_anchors) = true
  /\ result (is_in_checkpoint_zone 1000) three_anchors = true
  /\ 1000 <= result get_max_height three_anchors.
Proof.
  split; [exact three_anchors_well_formed|]. split; [reflexivity|].
  apply (anchored_height_in_checkpoint_zone (E:=externals)
           1000 h500 three_anchors three_anchors_well_formed).
  reflexivity.
Defined.

Lemma check_block_ignored_rejects_iff_witness :
  OMap.find (m_points three_anchors) 1000 = Some h1000
  /\ h1000 <> h500
  /\ result (check_block_ignored 1000 h500) three_anchors = false.
Proof.
  assert (Hne : h1000 <> h500) by (vm_compute; discriminate).
  split; [reflexivity|]. split; [exact Hne|].
  apply (proj1 (check_block_ignored_rejects_iff (E:=externals)
                  1000 h500 three_anchors)).
  exists h1000. split; [reflexivity|exact Hne].
Defined.

Lemma fork_allowed_above_reached_anchors_witness :
  well_formed three_anchors
  /\ In 1000 (anchored_heights three_anchors)
  /\ result (is_alternative_block_allowed 1200 1000) three_anchors = false
  /\ result (is_alternative_block_allowed 1200 1501) three_anchors = true.
Proof.
  destruct (fork_allowed_above_reached_anchors (E:=externals)
              1200 1000 three_anchors three_anchors_well_formed)
    as (_ & Hrefused & _).
  destruct (fork_allowed_above_reached_anchors (E:=externals)
              1200 1501 three_anchors three_anchors_well_formed)
    as (_ & _ & Habove).
  assert (Hin : In 1000 (anchored_heights three_anchors))
    by (simpl; auto).
  split; [exact three_anchors_well_formed|]. split; [exact Hin|]. split.
  - apply (Hrefused 1000 Hin); lia.
  - apply Habove; [lia|]. vm_compute. reflexivity.
Defined.

Lemma fork_allowed_monotone_witness :
  well_formed three_anchors
  /\ 700 <= 1200
  /\ 1001 <= 1400
  /\ result (is_alternative_block_allowed 1200 1001) three_anchors = true
  /\ result (is_alternative_block_allowed 700 1400) three_anchors = true.
Proof.
  split; [exact three_anchors_well_formed|].
  split; [lia|]. split; [lia|]. split; [reflexivity|].
  apply (fork_allowed_monotone (E:=externals) 1200 1001 700 1400
           three_anchors three_anchors_well_formed); [lia|lia|reflexivity].
Defined.

Lemma fork_allowed_outside_zone_witness :
  well_formed three_anchors
  /\ m_points three_anchors <> []
  /\ result get_max_height three_anchors <= 1600
  /\ result (is_alternative_block_allowed 1600 1500) three_anchors
     = negb (result (is_in_checkpoint_zone 1500) three_anchors).
Proof.
  assert (Hne : m_points three_anchors <> []) by (simpl; discriminate).
  assert (Hle : result get_max_height three_anchors <= 1600)
    by (vm_compute; discriminate).
  split; [exact three_anchors_well_formed|]. split; [exact Hne|].
  split; [exact Hle|].
  exact (fork_allowed_outside_zone (E:=externals) 1600 1500 three_anchors
           three_anchors_well_formed Hne Hle).
Defined.

Lemma mainnet_store_well_formed : well_formed mainnet_store.
Proof. split; vm_compute; reflexivity. Qed.

Lemma check_for_conflicts_symmetric_witness :
  well_formed mainnet_store
  /\ well_formed three_anchors
  /\ result (check_for_conflicts three_anchors) mainnet_store
     = result (check_for_conflicts mainnet_store) three_anchors
  /\ result (check_for_conflicts mainnet_store) mainnet_store = true.
Proof.
  split; [exact mainnet_store_well_formed|].
  split; [exact three_anchors_well_formed|].
  exact (check_for_conflicts_symmetric (E:=externals)
           mainnet_store three_anchors
           mainnet_store_well_formed three_anchors_well_formed).
Defined.

Lemma check_for_conflicts_predicts_insert_witness :
  result (check_for_conflicts three_anchors) new_checkpoints = true
  /\ In (500, h500) (m_points three_anchors)
  /\ hex_to_pod hash_500 = Some h500
  /\ result (add_checkpoint 500 hash_500 "") new_checkpoints = true.
Proof.
  assert (Hin : In (500, h500) (m_points three_anchors)) by (simpl; auto).
  split; [reflexivity|]. split; [exact Hin|]. split; [reflexivity|].
  apply (proj1 (check_for_conflicts_predicts_insert (E:=externals)
                  three_anchors new_checkpoints) eq_refl 500 h500 hash_500);
    [exact Hin|reflexivity].
Defined.

Lemma load_checkpoints_from_json_only_adds_witness :
  OMap.find (m_points three_anchors) 1000 = Some h1000
  /\ well_formed three_anchors
  /\ OMap.find
       (m_points
          (state_after (load_checkpoints_from_json "checkpoints.json")
             three_anchors)) 1000 = Some h1000
  /\ m_difficulty_points
       (state_after (load_checkpoints_from_json "checkpoints.json")
          three_anchors) = m_difficulty_points three_anchors
  /\ well_formed
       (state_after (load_checkpoints_from_json "checkpoints.json")
          three_anchors).
Proof.
  destruct (load_checkpoints_from_json_only_adds (E:=externals)
              "checkpoints.json" three_anchors)
    as (Hd & Hkeep & _ & Hwf & _).
  split; [reflexivity|]. split; [exact three_anchors_well_formed|].
  split; [apply Hkeep; reflexivity|]. split; [exact Hd|].
  apply Hwf. exact three_anchors_well_formed.
Defined.

Lemma load_checkpoints_from_json_succeeds_iff_witness :
  well_formed three_anchors
  /\ file_exists "checkpoints.json" = true
  /\ result (load_checkpoints_from_json "checkpoints.json") three_anchors
     = true
  /\ records_decode (result get_max_height three_anchors)
       [mk_hashline 400 hash_500; mk_hashline 17000 hash_1000;
        mk_hashline 17500 hash_1500]
  /\ records_agree (result get_max_height three_anchors)
       [mk_hashline 400 hash_500; mk_hashline 17000 hash_1000;
        mk_hashline 17500 hash_1500].
Proof.
  split; [exact three_anchors_well_formed|]. split; [reflexivity|].
  split; [reflexivity|].
  apply (proj1 (load_checkpoints_from_json_succeeds_iff (E:=externals)
                  "checkpoints.json"
                  (mk_hash_json [mk_hashline 400 hash_500;
                                 mk_hashline 17000 hash_1000;
                                 mk_hashline 17500 hash_1500])
                  three_anchors three_anchors_well_formed
                  eq_refl eq_refl)).
  reflexivity.
Defined.

Lemma load_checkpoints_from_json_reload_witness :
  well_formed three_anchors
  /\ result (load_checkpoints_from_json "checkpoints.json") three_anchors
     = true
  /\ load_checkpoints_from_json "checkpoints.json"
       (state_after (load_checkpoints_from_json "checkpoints.json")
          three_anchors)
     = (true,
        state_after (load_checkpoints_from_json "checkpoints.json")
          three_anchors).
Proof.
  split; [exact three_anchors_well_formed|]. split; [reflexivity|].
  apply (load_checkpoints_from_json_reload (E:=externals)
           "checkpoints.json" three_anchors three_anchors_well_formed).
  reflexivity.
Defined.

Lemma init_default_checkpoints_idempotent_witness :
  init_default_checkpoints MAINNET mainnet_store
  = init_default_checkpoints MAINNET new_checkpoints
  /\ extends new_checkpoints mainnet_store.
Proof.
  exact (init_default_checkpoints_idempotent (E:=externals)
           MAINNET new_checkpoints).
Defined.

Lemma init_default_checkpoints_succeeds_iff_witness :
  (forall k, In k (table_heights (default_table TESTNET)) ->
             OMap.find (m_points new_checkpoints) k = None
             /\ OMap.find (m_difficulty_points new_checkpoints) k = None)
  /\ (result (init_default_checkpoints TESTNET) new_checkpoints = true
      <-> table_decodes (default_table TESTNET)).
Proof.
  assert (Hfresh : forall k, In k (table_heights (default_table TESTNET)) ->
             OMap.find (m_points new_checkpoints) k = None
             /\ OMap.find (m_difficulty_points new_checkpoints) k = None)
    by (intros k _; split; reflexivity).
  split; [exact Hfresh|].
  exact (init_default_checkpoints_succeeds_iff (E:=externals)
           TESTNET new_checkpoints Hfresh).
Defined.

Lemma get_max_height_zero_iff_witness :
  well_formed new_checkpoints
  /\ (result get_max_height new_checkpoints = 0
      <-> m_points new_checkpoints = []
          \/ anchored_heights new_checkpoints = [0])
  /\ result (is_in_checkpoint_zone 0) new_checkpoints
     = negb (OMap.empty (m_points new_checkpoints)).
Proof.
  split; [exact (new_checkpoints_well_formed (E:=externals))|].
  exact (get_max_height_zero_iff (E:=externals) new_checkpoints
           (new_checkpoints_well_formed (E:=externals))).
Defined.

Lemma load_checkpoints_from_json_then_check_block_witness :
  file_exists "checkpoints.json" = true
  /\ result (load_checkpoints_from_json "checkpoints.json") three_anchors
     = true
  /\ result get_max_height three_anchors < 17000
  /\ exists h,
       hex_to_pod hash_1000 = Some h
       /\ check_block 17000 h
            (state_after (load_checkpoints_from_json "checkpoints.json")
               three_anchors)
          = ((true, true),
             state_after (load_checkpoints_from_json "checkpoints.json")
               three_anchors).
Proof.
  assert (Hgt : result get_max_height three_anchors < 17000)
    by (vm_compute; reflexivity).
  split; [reflexivity|]. split; [reflexivity|]. split; [exact Hgt|].
  destruct (load_checkpoints_from_json_then_check_block (E:=externals)
              "checkpoints.json"
              (mk_hash_json [mk_hashline 400 hash_500;
                             mk_hashline 17000 hash_1000;
                             mk_hashline 17500 hash_1500])
              three_anchors (mk_hashline 17000 hash_1000)
              eq_refl eq_refl eq_refl (or_intror (or_introl eq_refl)) Hgt)
    as (h & Hhex & Hok & _).
  exists h. split; [exact Hhex|exact Hok].
Defined.

Lemma add_checkpoint_commute_witness :
  500 <> 1000
  /\ state_after (add_checkpoint 1000 hash_1000 "0x14bef2")
       (state_after (add_checkpoint 500 hash_500 "0x1181d0") new_checkpoints)
     = state_after (add_checkpoint 500 hash_500 "0x1181d0")
         (state_after (add_checkpoint 1000 hash_1000 "0x14bef2")
            new_checkpoints).
Proof.
  split; [discriminate|].
  apply (add_checkpoint_commute (E:=externals)
           500 hash_500 "0x1181d0" 1000 hash_1000 "0x14bef2"
           new_checkpoints).
  discriminate.
Defined.
